(** * LiveMart: inventory reservation, order status and token rotation

    A shallow embedding of the stateful business logic of the LiveMart
    server: the instance methods of the Inventory and Order models and the
    login / refresh paths of the Auth service, with the properties the
    design document states about them.

    Conventions of the embedding.
    - A Mongoose instance method mutates [this] and either returns or
      throws.  It is embedded as a function from the document to a
      completion (a returned value or a thrown [Error]) paired with the
      document as the method leaves it.  Mutations done before a [throw]
      stay visible in the resulting document, as in JavaScript.
    - [new Date()] is an explicit argument [now], in milliseconds.
    - Stock counters and quantities are whole numbers ([Z]); prices and
      discount amounts are exact rationals ([Qc]).  The rounding of
      JavaScript's doubles is outside the model.
    - [this.save()] hands the document to the database, which is outside
      the source.  What the source holds are the schema's validators,
      which [save()] runs first: a method that writes a path with a
      validator is embedded with [saveValidated] and throws a
      ValidationError when the value it wrote fails, the in-memory
      document keeping that value.  What a method does not write is what
      was loaded, and that passed the same validators when it was stored;
      where no validator of a written path can fail the method is embedded
      with [save], which returns.
    - The setters a schema puts on a string path ([lowercase],
      [uppercase], [trim]) call the string methods of the JavaScript
      runtime; they are an interface, [SchemaSetters]. *)

From Stdlib Require Import ZArith QArith Qcanon Ascii String List Lia.
From stdpp Require Import base numbers option list strings pretty gmap.

Local Open Scope string_scope.
Local Open Scope Z_scope.

(** ** JavaScript completions and methods over a receiver *)

Module Js.

(** [new Error(message)] *)
Record Error : Type := mkError { message : string }.

Inductive Completion (A : Type) : Type :=
| Return (a : A)
| Throw (e : Error).
Arguments Return {A} a.
Arguments Throw {A} e.

(** A method with receiver (or ambient state) [S] and result [A]. *)
Definition Method (S A : Type) : Type := S -> Completion A * S.

Definition ret {S A} (a : A) : Method S A := fun s => (Return a, s).
Definition throw {S A} (e : Error) : Method S A := fun s => (Throw e, s).
Definition bind {S A B} (m : Method S A) (k : A -> Method S B) : Method S B :=
  fun s => match m s with
           | (Return a, s') => k a s'
           | (Throw e, s') => (Throw e, s')
           end.
Definition get {S} : Method S S := fun s => (Return s, s).
Definition modify {S} (f : S -> S) : Method S unit := fun s => (Return tt, f s).
Definition when {S} (b : bool) (m : Method S unit) : Method S unit :=
  if b then m else ret tt.

(** [await this.save()] in a method that wrote no path on which a
    validator of the schema can fail. *)
Definition save {S} : Method S unit := ret tt.

(** A validator of a schema path ([min], [max], [validate]): the path and
    the test on the document. *)
Definition Validator (S : Type) : Type := string * (S -> bool).

(** The ValidationError of Mongoose.  It is told by the paths that failed;
    the sentence Mongoose composes around them is not modelled. *)
Definition ValidationError (paths : list string) : Error :=
  mkError ("Validation failed: " +:+ String.concat ", " paths).

(** The paths among [validators] whose test the document fails. *)
Definition failing {S} (validators : list (Validator S)) (s : S) : list string :=
  map fst (List.filter (fun v => negb (snd v s)) validators).

(** [await this.save()] after writes to the paths of [validators]: it
    throws when one of them fails and leaves the document as the method
    made it. *)
Definition saveValidated {S} (validators : list (Validator S)) : Method S unit :=
  fun s =>
    match failing validators s with
    | [] => (Return tt, s)
    | paths => (Throw (ValidationError paths), s)
    end.

(** The setters of the schemas' string paths, which Mongoose runs when a
    value is assigned or pushed and on the filter of a query:
    [uppercase: true, trim: true] on a discount's code and
    [lowercase: true, trim: true] on a user's email.  They call
    [toUpperCase], [toLowerCase] and [trim] of the runtime. *)
Class SchemaSetters : Type := {
  uppercase_trim : string -> string;
  lowercase_trim : string -> string
}.

Definition completion {S A} (r : Completion A * S) : Completion A := fst r.
Definition after {S A} (r : Completion A * S) : S := snd r.

Definition returns {A} (c : Completion A) : bool :=
  match c with Return _ => true | Throw _ => false end.

(** The sequencing notations [x ← m; k] and [m;; k] are stdpp's. *)
#[global] Instance Method_ret {S} : MRet (Method S) := fun A => ret.
#[global] Instance Method_bind {S} : MBind (Method S) :=
  fun A B k m => bind m k.

(** [Math.max] on whole numbers; [Math.max] and [Math.min] on rationals. *)
Definition Math_max (a b : Z) : Z := Z.max a b.
Definition Math_maxQ (a b : Qc) : Qc := if decide (a ≤ b)%Qc then b else a.
Definition Math_minQ (a b : Qc) : Qc := if decide (a ≤ b)%Qc then a else b.

End Js.

Import Js.

(** ** Inventory model *)

Module Inventory.

Inductive DiscountType : Type :=
| PERCENTAGE | FIXED_AMOUNT | BUY_ONE_GET_ONE | FREE_SHIPPING.

Record IDiscount : Type := mkDiscount {
  discountId : string;
  code : string;
  type : DiscountType;
  value : Qc;
  minPurchase : Qc;
  maxDiscount : Qc;
  validFrom : Z;
  validUntil : Z;
  isActive : bool
}.

(** The fields of [IInventory]; [createdAt] and [updatedAt] are kept by
    the database layer and read by none of the methods. *)
Record IInventory : Type := mkInventory {
  productId : string;
  ownerId : string;
  currentStock : Z;
  reservedStock : Z;
  reorderLevel : Z;
  sellingPrice : Qc;
  discounts : list IDiscount;
  availability : bool;
  lastRestocked : Z
}.

Definition set_currentStock (v : Z) (this : IInventory) : IInventory :=
  mkInventory (productId this) (ownerId this) v (reservedStock this)
    (reorderLevel this) (sellingPrice this) (discounts this)
    (availability this) (lastRestocked this).

Definition set_reservedStock (v : Z) (this : IInventory) : IInventory :=
  mkInventory (productId this) (ownerId this) (currentStock this) v
    (reorderLevel this) (sellingPrice this) (discounts this)
    (availability this) (lastRestocked this).

Definition set_lastRestocked (v : Z) (this : IInventory) : IInventory :=
  mkInventory (productId this) (ownerId this) (currentStock this)
    (reservedStock this) (reorderLevel this) (sellingPrice this)
    (discounts this) (availability this) v.

(** The messages of the errors the stock methods throw. *)
Definition InsufficientStock : Error := mkError "Insufficient stock".
Definition InsufficientReservation : Error :=
  mkError "Insufficient reserved stock".

(** [min: [0, 'Stock cannot be negative']] on [currentStock] and
    [min: [0, 'Reserved stock cannot be negative']] on [reservedStock]. *)
Definition min_currentStock : Validator IInventory :=
  ("currentStock", fun this => 0 <=? currentStock this).
Definition min_reservedStock : Validator IInventory :=
  ("reservedStock", fun this => 0 <=? reservedStock this).

(** [InventorySchema.methods.updateStock] *)
Definition updateStock (quantity : Z) (now : Z) : Method IInventory unit :=
  modify (fun this => set_currentStock (currentStock this + quantity) this);;
  this ← get;
  if currentStock this <? 0 then throw InsufficientStock
  else
    when (quantity >? 0) (modify (set_lastRestocked now));;
    saveValidated [min_currentStock].

(** [InventorySchema.methods.reserveStock] *)
Definition reserveStock (quantity : Z) : Method IInventory bool :=
  this ← get;
  let availableStock := currentStock this - reservedStock this in
  if availableStock >=? quantity then
    modify (fun this => set_reservedStock (reservedStock this + quantity) this);;
    saveValidated [min_reservedStock];;
    ret true
  else ret false.

(** [InventorySchema.methods.releaseReservedStock] *)
Definition releaseReservedStock (quantity : Z) : Method IInventory unit :=
  modify (fun this =>
    set_reservedStock (Math_max 0 (reservedStock this - quantity)) this);;
  saveValidated [min_reservedStock].

(** [InventorySchema.methods.confirmReservedStock] *)
Definition confirmReservedStock (quantity : Z) : Method IInventory unit :=
  this ← get;
  if reservedStock this >=? quantity then
    modify (fun this => set_reservedStock (reservedStock this - quantity) this);;
    modify (fun this => set_currentStock (currentStock this - quantity) this);;
    saveValidated [min_currentStock; min_reservedStock]
  else throw InsufficientReservation.

(** [InventorySchema.methods.isLowStock] *)
Definition isLowStock (this : IInventory) : bool :=
  currentStock this <=? reorderLevel this.

(** The virtual [availableStock]. *)
Definition availableStock (this : IInventory) : Z :=
  currentStock this - reservedStock this.

(** The predicate of [this.discounts.filter(...)] in
    [calculateFinalPrice]: [d.isActive && d.validFrom <= now &&
    d.validUntil >= now]. *)
Definition isActiveDiscount (now : Z) (d : IDiscount) : bool :=
  isActive d && (validFrom d <=? now) && (validUntil d >=? now).

(** [discountAmount] as the loop body computes it from the running
    price: by type first, then capped when [maxDiscount > 0]. *)
Definition discountAmount (finalPrice : Qc) (discount : IDiscount) : Qc :=
  let discountAmount :=
    match type discount with
    | PERCENTAGE => (finalPrice * value discount) / Qc_of_Z 100
    | FIXED_AMOUNT => value discount
    | _ => 0
    end%Qc in
  if bool_decide (0 < maxDiscount discount)%Qc
  then Math_minQ discountAmount (maxDiscount discount)
  else discountAmount.

(** One turn of [for (const discount of activeDiscounts)]. *)
Definition applyDiscount (finalPrice : Qc) (discount : IDiscount) : Qc :=
  if bool_decide (minPurchase discount ≤ finalPrice)%Qc
  then (finalPrice - discountAmount finalPrice discount)%Qc
  else finalPrice.

(** [InventorySchema.methods.calculateFinalPrice]; [quantity] is [None]
    when the caller leaves the argument out (default 1). *)
Definition calculateFinalPrice
    (quantity : option Z) (now : Z) (this : IInventory) : Qc :=
  let quantity := default 1 quantity in
  let finalPrice := (sellingPrice this * Qc_of_Z quantity)%Qc in
  let activeDiscounts := List.filter (isActiveDiscount now) (discounts this) in
  let finalPrice := fold_left applyDiscount activeDiscounts finalPrice in
  Math_maxQ 0%Qc finalPrice.

(** *** The pricing rule as the design document words it

    "computes sellingPrice*qty, then applies every currently-valid,
    isActive discount whose minPurchase is met, in list order, each
    discount capped by its own maxDiscount if set; result floored at 0".
    The validity window is a parameter, so that the rule can be read
    with the half-open window of the document and with a closed one. *)
Section PriceFor.
Variable window : Z -> IDiscount -> bool.

Definition uncapped (price : Qc) (d : IDiscount) : Qc :=
  match type d with
  | PERCENTAGE => (price * value d) / Qc_of_Z 100
  | FIXED_AMOUNT => value d
  | BUY_ONE_GET_ONE | FREE_SHIPPING => 0
  end%Qc.

Definition capped (amount : Qc) (d : IDiscount) : Qc :=
  if bool_decide (0 < maxDiscount d)%Qc
  then (if bool_decide (maxDiscount d < amount)%Qc then maxDiscount d else amount)
  else amount.

Fixpoint applyInOrder (now : Z) (ds : list IDiscount) (price : Qc) : Qc :=
  match ds with
  | [] => price
  | d :: ds =>
      if isActive d && window now d && bool_decide (minPurchase d ≤ price)%Qc
      then applyInOrder now ds (price - capped (uncapped price d) d)%Qc
      else applyInOrder now ds price
  end.

Definition priceFor (qty : Z) (now : Z) (this : IInventory) : Qc :=
  let p := applyInOrder now (discounts this) (sellingPrice this * Qc_of_Z qty)%Qc in
  if bool_decide (p < 0)%Qc then 0%Qc else p.
End PriceFor.

(** [validFrom <= now < validUntil] *)
Definition halfOpenWindow (now : Z) (d : IDiscount) : bool :=
  (validFrom d <=? now) && (now <? validUntil d).

(** [validFrom <= now <= validUntil] *)
Definition closedWindow (now : Z) (d : IDiscount) : bool :=
  (validFrom d <=? now) && (now <=? validUntil d).

Definition altersPrice (d : IDiscount) : bool :=
  match type d with
  | PERCENTAGE | FIXED_AMOUNT => true
  | BUY_ONE_GET_ONE | FREE_SHIPPING => false
  end.

Definition set_discounts (v : list IDiscount) (this : IInventory) : IInventory :=
  mkInventory (productId this) (ownerId this) (currentStock this)
    (reservedStock this) (reorderLevel this) (sellingPrice this)
    v (availability this) (lastRestocked this).






(** The virtual [stockStatus]. *)
Inductive StockStatus : Type := OUT_OF_STOCK | LOW_STOCK | IN_STOCK.

Definition stockStatus (this : IInventory) : StockStatus :=
  if currentStock this =? 0 then OUT_OF_STOCK
  else if isLowStock this then LOW_STOCK
  else IN_STOCK.

End Inventory.

(** ** Order model *)

Module OrderStatus.
Inductive t : Type :=
| PENDING | CONFIRMED | PROCESSING | SHIPPED | OUT_FOR_DELIVERY
| DELIVERED | CANCELLED | RETURNED.

#[global] Instance eq_dec : EqDecision t.
Proof. solve_decision. Defined.
End OrderStatus.

Module PaymentStatus.
Inductive t : Type :=
| PENDING | PROCESSING | COMPLETED | FAILED | REFUNDED | CANCELLED.

#[global] Instance eq_dec : EqDecision t.
Proof. solve_decision. Defined.
End PaymentStatus.

Module Order.
Inductive OrderType : Type := ONLINE | OFFLINE.

Record IOrderItem : Type := mkOrderItem {
  productId : string;
  name : string;
  quantity : Z;
  unitPrice : Qc;
  subtotal : Qc;
  discounts : option Qc
}.

(** An element of [trackingInfo.statusHistory]. *)
Record StatusEntry : Type := mkStatusEntry {
  entryStatus : OrderStatus.t;
  timestamp : Z;
  entryNotes : option string
}.

Record ITrackingInfo : Type := mkTrackingInfo {
  currentStatus : OrderStatus.t;
  statusHistory : list StatusEntry;
  estimatedDelivery : option Z;
  deliveryPersonId : option string
}.

(** The fields of [IOrder] the methods read or write, with the
    identifiers; the delivery address, the scheduling date and the
    database timestamps are carried along untouched and left out. *)
Record IOrder : Type := mkOrder {
  orderId : string;
  customerId : string;
  retailerId : string;
  items : list IOrderItem;
  orderType : OrderType;
  status : OrderStatus.t;
  paymentStatus : PaymentStatus.t;
  totalAmount : Qc;
  trackingInfo : ITrackingInfo;
  notes : option string
}.

Definition set_status (v : OrderStatus.t) (this : IOrder) : IOrder :=
  mkOrder (orderId this) (customerId this) (retailerId this) (items this)
    (orderType this) v (paymentStatus this) (totalAmount this)
    (trackingInfo this) (notes this).

Definition set_paymentStatus (v : PaymentStatus.t) (this : IOrder) : IOrder :=
  mkOrder (orderId this) (customerId this) (retailerId this) (items this)
    (orderType this) (status this) v (totalAmount this)
    (trackingInfo this) (notes this).

Definition set_trackingInfo (v : ITrackingInfo) (this : IOrder) : IOrder :=
  mkOrder (orderId this) (customerId this) (retailerId this) (items this)
    (orderType this) (status this) (paymentStatus this) (totalAmount this)
    v (notes this).

Definition set_currentStatus (v : OrderStatus.t) (ti : ITrackingInfo) : ITrackingInfo :=
  mkTrackingInfo v (statusHistory ti) (estimatedDelivery ti) (deliveryPersonId ti).

(** [statusHistory.push(entry)] *)
Definition push_statusHistory (e : StatusEntry) (ti : ITrackingInfo) : ITrackingInfo :=
  mkTrackingInfo (currentStatus ti) (statusHistory ti ++ [e])
    (estimatedDelivery ti) (deliveryPersonId ti).

Definition CannotCancelDelivered : Error :=
  mkError "Cannot cancel delivered order".

(** [OrderSchema.methods.updateStatus] *)
Definition updateStatus (newStatus : OrderStatus.t) (notes : option string)
    (now : Z) : Method IOrder unit :=
  modify (set_status newStatus);;
  modify (fun this =>
    set_trackingInfo (set_currentStatus newStatus (trackingInfo this)) this);;
  modify (fun this =>
    set_trackingInfo
      (push_statusHistory (mkStatusEntry newStatus now notes) (trackingInfo this))
      this);;
  save.

(** [OrderSchema.methods.cancel] *)
Definition cancel (reason : option string) (now : Z) : Method IOrder unit :=
  this ← get;
  if bool_decide (status this = OrderStatus.DELIVERED)
  then throw CannotCancelDelivered
  else
    updateStatus OrderStatus.CANCELLED reason now;;
    modify (set_paymentStatus PaymentStatus.CANCELLED);;
    save.

(** [OrderSchema.methods.markAsPaid] *)
Definition markAsPaid : Method IOrder unit :=
  modify (set_paymentStatus PaymentStatus.COMPLETED);;
  save.

(** [Array.prototype.includes] on statuses. *)
Definition includes (l : list OrderStatus.t) (x : OrderStatus.t) : bool :=
  existsb (fun y => bool_decide (y = x)) l.

(** The virtual [canCancel]. *)
Definition canCancel (this : IOrder) : bool :=
  negb (includes
          [OrderStatus.DELIVERED; OrderStatus.CANCELLED; OrderStatus.RETURNED]
          (status this)).

(** The terminal states of the design document. *)
Definition terminal (s : OrderStatus.t) : bool :=
  match s with
  | OrderStatus.DELIVERED | OrderStatus.CANCELLED | OrderStatus.RETURNED => true
  | _ => false
  end.

(** "Immutable thereafter", for one operation's outcome: the status and
    the status history are what they were. *)
Definition unchanged (this this' : IOrder) : Prop :=
  status this' = status this
  /\ statusHistory (trackingInfo this') = statusHistory (trackingInfo this).

(** The design document's rule for terminal states: neither [cancel] nor
    [updateStatus] changes an order that has reached one. *)
Definition terminal_immutable : Prop :=
  forall this : IOrder,
    terminal (status this) = true ->
    (forall reason now, unchanged this (after (cancel reason now this)))
    /\ (forall newStatus notes now,
          unchanged this (after (updateStatus newStatus notes now this))).

(** The virtual [itemCount]. *)
Definition itemCount (this : IOrder) : Z :=
  fold_left (fun sum item => sum + quantity item) (items this) 0.

End Order.

(** ** Product model *)

Module Product.

Record ICategory : Type := mkCategory {
  categoryId : string;
  categoryName : string;
  parentCategory : option string;
  icon : option string
}.

(** The fields of [IProduct], without the database timestamps.  The
    rating is an exact rational; [reviewCount] is a whole number. *)
Record IProduct : Type := mkProduct {
  name : string;
  description : string;
  category : ICategory;
  specifications : gmap string string;
  images : list string;
  basePrice : Qc;
  unit : string;
  tags : list string;
  isActive : bool;
  createdBy : string;
  averageRating : Qc;
  reviewCount : Z
}.

Definition set_images (v : list string) (this : IProduct) : IProduct :=
  mkProduct (name this) (description this) (category this)
    (specifications this) v (basePrice this) (unit this) (tags this)
    (isActive this) (createdBy this) (averageRating this) (reviewCount this).

Definition set_isActive (v : bool) (this : IProduct) : IProduct :=
  mkProduct (name this) (description this) (category this)
    (specifications this) (images this) (basePrice this) (unit this)
    (tags this) v (createdBy this) (averageRating this) (reviewCount this).

Definition set_averageRating (v : Qc) (this : IProduct) : IProduct :=
  mkProduct (name this) (description this) (category this)
    (specifications this) (images this) (basePrice this) (unit this)
    (tags this) (isActive this) (createdBy this) v (reviewCount this).

Definition set_reviewCount (v : Z) (this : IProduct) : IProduct :=
  mkProduct (name this) (description this) (category this)
    (specifications this) (images this) (basePrice this) (unit this)
    (tags this) (isActive this) (createdBy this) (averageRating this) v.

(** [min: 0, max: 5] on [averageRating] and [min: 0] on [reviewCount]. *)
Definition range_averageRating : Validator IProduct :=
  ("averageRating",
   fun this => bool_decide (0 ≤ averageRating this)%Qc
               && bool_decide (averageRating this ≤ Qc_of_Z 5)%Qc).
Definition min_reviewCount : Validator IProduct :=
  ("reviewCount", fun this => 0 <=? reviewCount this).

(** [ProductSchema.methods.updateRating].  The division is exact; it is
    by zero only from [reviewCount = -1], which the schema's [min: 0]
    excludes. *)
Definition updateRating (newRating : Qc) : Method IProduct Datatypes.unit :=
  this ← get;
  let currentTotal := (averageRating this * Qc_of_Z (reviewCount this))%Qc in
  modify (fun this => set_reviewCount (reviewCount this + 1) this);;
  modify (fun this =>
    set_averageRating
      ((currentTotal + newRating) / Qc_of_Z (reviewCount this))%Qc this);;
  saveValidated [range_averageRating; min_reviewCount].

(** [ProductSchema.methods.toggleActive] *)
Definition toggleActive : Method IProduct bool :=
  modify (fun this => set_isActive (negb (isActive this)) this);;
  save;;
  this ← get;
  mret (isActive this).

(** [Array.prototype.includes] on strings. *)
Definition includes (l : list string) (x : string) : bool :=
  existsb (fun y => bool_decide (y = x)) l.

(** The validator of an image, [/^https?:\/\/.+/.test(v)].  A string is
    a sequence of code units below 256; of these [.] matches all but the
    line terminators LF and CR. *)
Definition lineTerminator (a : ascii) : bool :=
  Ascii.eqb a "010"%char || Ascii.eqb a "013"%char.

Definition startsWithDot (s : string) : bool :=
  match s with
  | String a _ => negb (lineTerminator a)
  | EmptyString => false
  end.

Fixpoint dropPrefix (p s : string) : option string :=
  match p, s with
  | EmptyString, _ => Some s
  | String a p', String b s' =>
      if Ascii.eqb a b then dropPrefix p' s' else None
  | String _ _, EmptyString => None
  end.

Definition isImageUrl (v : string) : bool :=
  match dropPrefix "http" v with
  | Some rest =>
      match dropPrefix "s://" rest with
      | Some rest' => startsWithDot rest'
      | None =>
          match dropPrefix "://" rest with
          | Some rest' => startsWithDot rest'
          | None => false
          end
      end
  | None => false
  end.

(** [ProductSchema.methods.addImage]; [save()] validates the image that
    was pushed. *)
Definition addImage (imageUrl : string) : Method IProduct Datatypes.unit :=
  this ← get;
  if negb (includes (images this) imageUrl) then
    modify (fun this => set_images (images this ++ [imageUrl]) this);;
    saveValidated [("images", fun _ => isImageUrl imageUrl)]
  else mret tt.

(** [ProductSchema.methods.removeImage]; the images it keeps are stored
    ones. *)
Definition removeImage (imageUrl : string) : Method IProduct Datatypes.unit :=
  modify (fun this =>
    set_images
      (List.filter (fun img => negb (bool_decide (img = imageUrl))) (images this))
      this);;
  save.

(** The virtual [isPopular]. *)
Definition isPopular (this : IProduct) : bool :=
  (reviewCount this >=? 10)
  && bool_decide (Qc_of_Z 4 ≤ averageRating this)%Qc.

End Product.

(** ** Customer model *)

Module Customer.

(** The fields [ICustomer] adds to the base user. *)
Record ICustomer : Type := mkCustomer {
  wishlist : list string;
  orderHistory : list string;
  loyaltyPoints : Z;
  cart : option string
}.

Definition set_loyaltyPoints (v : Z) (this : ICustomer) : ICustomer :=
  mkCustomer (wishlist this) (orderHistory this) v (cart this).

(** [min: 0] on [loyaltyPoints]. *)
Definition min_loyaltyPoints : Validator ICustomer :=
  ("loyaltyPoints", fun this => 0 <=? loyaltyPoints this).

(** [CustomerSchema.methods.addLoyaltyPoints] *)
Definition addLoyaltyPoints (points : Z) : Method ICustomer unit :=
  modify (fun this => set_loyaltyPoints (loyaltyPoints this + points) this);;
  saveValidated [min_loyaltyPoints].

(** [CustomerSchema.methods.redeemLoyaltyPoints] *)
Definition redeemLoyaltyPoints (points : Z) : Method ICustomer bool :=
  this ← get;
  if loyaltyPoints this >=? points then
    modify (fun this => set_loyaltyPoints (loyaltyPoints this - points) this);;
    saveValidated [min_loyaltyPoints];;
    mret true
  else mret false.

End Customer.

(** ** Auth service *)

Module User.

Inductive UserType : Type := CUSTOMER | RETAILER | WHOLESALER | ADMIN.

(** The fields of [IUser] the auth paths read or write.  [password] is
    [None] on a document loaded without [select('+password')]
    (the schema declares it [select: false]) and on a response object
    after [delete userObject.password]. *)
Record IUser : Type := mkUser {
  _id : string;
  email : string;
  phone : string;
  password : option string;
  userType : UserType;
  isVerified : bool;
  isActive : bool;
  lastActive : Z
}.

Definition set_password (v : option string) (u : IUser) : IUser :=
  mkUser (_id u) (email u) (phone u) v (userType u)
    (isVerified u) (isActive u) (lastActive u).

End User.

Module Jwt.

(** The payload handed to [generateTokenPair] and returned by
    [verifyRefreshToken]. *)
Record JwtPayload : Type := mkPayload {
  userId : string;
  email : string;
  userType : User.UserType
}.

Record TokenPair : Type := mkTokenPair {
  accessToken : string;
  refreshToken : string
}.

(** The part of [jwtService] (jwt.service.ts, not among the sources)
    that signs and verifies: taken as an interface.  Both functions read
    the clock, which is their first argument here;
    [verifyRefreshToken] throws on a token it rejects. *)
Class JwtService : Type := {
  generateTokenPair : Z -> JwtPayload -> TokenPair;
  verifyRefreshToken : Z -> string -> Completion JwtPayload
}.

End Jwt.

Module Auth.
Import User Jwt.

(** [bcrypt.compare], from the bcryptjs package; it may throw. *)
Class Bcrypt : Type := {
  bcrypt_compare : string -> string -> Completion bool
}.

Record LoginData : Type := mkLoginData {
  login_email : string;
  login_password : string
}.

(** What the service works on: the User collection and the store of
    refresh tokens. *)
Record World : Type := mkWorld {
  users : list IUser;
  refreshTokens : gmap string string
}.

Definition set_users (v : list IUser) (w : World) : World :=
  mkWorld v (refreshTokens w).
Definition set_refreshTokens (v : gmap string string) (w : World) : World :=
  mkWorld (users w) v.

Definition InvalidCredentials : Error := mkError "Invalid email or password".
Definition AccountDeactivated : Error :=
  mkError "Account is deactivated. Please contact support.".
Definition TokenMismatch : Error := mkError "Invalid refresh token".
Definition UserNotFoundOrInactive : Error :=
  mkError "User not found or inactive".

(** [User.findOne({ email }).select('+password')].  Mongoose casts the
    filter by the schema, so the email looked for is the one given, passed
    through the setters of the path ([lowercase], [trim]). *)
Definition findOne_email {setters : SchemaSetters} (e : string)
    : Method World (option IUser) :=
  w ← get;
  mret (find (fun u => bool_decide (User.email u = lowercase_trim e)) (users w)).

(** [User.findById(id)]; the password is not selected.  [id] is an
    ObjectId in its string form, as [_id.toString()] gives it and as the
    payload of an issued token carries it; the cast of a string that is
    none is outside this lookup. *)
Definition findById (id : string) : Method World (option IUser) :=
  w ← get;
  mret (set_password None <$>
          find (fun u => bool_decide (_id u = id)) (users w)).

(** Modelled from the spec: [jwtService.getRefreshToken] and
    [jwtService.storeRefreshToken] of jwt.service.ts, which is not among
    the sources.  The design document describes the token store as a
    "key-value cache mapping user identifier → current refresh token"
    with get/set/delete; a missing key reads as [null]. *)
Definition getRefreshToken (userId : string) : Method World (option string) :=
  w ← get;
  mret (refreshTokens w !! userId).

Definition storeRefreshToken (userId token : string) : Method World unit :=
  modify (fun w => set_refreshTokens (<[userId := token]> (refreshTokens w)) w).

(** [UserSchema.methods.comparePassword]: any exception of
    [bcrypt.compare] is caught and answered [false]; so is a document
    that carries no hash. *)
Definition comparePassword `{Bcrypt} (this : IUser) (candidatePassword : string) : bool :=
  match password this with
  | Some hash =>
      match bcrypt_compare candidatePassword hash with
      | Return b => b
      | Throw _ => false
      end
  | None => false
  end.

(** [userObject.password] deleted from [user.toObject()]. *)
Definition toObject (user : IUser) : IUser := set_password None user.

(** A JavaScript string is falsy exactly when it is empty. *)
Definition truthy (s : string) : bool := negb (bool_decide (s = "")).

Section Service.
Context {jwt : JwtService} {bcrypt : Bcrypt} {setters : SchemaSetters}.

(** [AuthService.login].  The [catch] block logs and rethrows, which
    changes neither the completion nor the world.  [user.lastLogin = new
    Date()] sets a property that is no path of UserSchema: the data of
    the document is as it was loaded, and [user.save()] has nothing to
    validate or to write. *)
Definition login (data : LoginData) (now : Z)
    : Method World (IUser * TokenPair) :=
  user ← findOne_email (login_email data);
  match user with
  | None => throw InvalidCredentials
  | Some user =>
      if negb (isActive user) then throw AccountDeactivated
      else
        let isPasswordValid := comparePassword user (login_password data) in
        if negb isPasswordValid then throw InvalidCredentials
        else
          save;;
          let userId := _id user in
          let tokens :=
            generateTokenPair now
              (mkPayload userId (User.email user) (User.userType user)) in
          storeRefreshToken userId (refreshToken tokens);;
          mret (toObject user, tokens)
  end.

(** [AuthService.refreshToken] *)
Definition refreshToken (refreshToken : string) (now : Z)
    : Method World TokenPair :=
  match verifyRefreshToken now refreshToken with
  | Throw e => throw e
  | Return payload =>
      storedToken ← getRefreshToken (userId payload);
      if negb (from_option truthy false storedToken)
         || negb (bool_decide (storedToken = Some refreshToken))
      then throw TokenMismatch
      else
        user ← findById (userId payload);
        match user with
        | None => throw UserNotFoundOrInactive
        | Some user =>
            if negb (isActive user) then throw UserNotFoundOrInactive
            else
              let userId := _id user in
              let tokens :=
                generateTokenPair now
                  (mkPayload userId (User.email user) (User.userType user)) in
              storeRefreshToken userId (Jwt.refreshToken tokens);;
              mret tokens
        end
  end.
End Service.

(** *** Registration, logout and the placeholders *)

Record BankDetails : Type := mkBankDetails {
  accountNumber : string;
  ifscCode : string;
  bankName : string;
  accountHolderName : string
}.

(** [RegisterData] as it arrives in the request body: [userType] is
    whatever string the client sent, and the optional fields may be
    missing. *)
Record RegisterData : Type := mkRegisterData {
  reg_email : string;
  reg_password : string;
  reg_userType : string;
  reg_profile_name : string;
  reg_profile_phone : string;
  businessName : option string;
  gstin : option string;
  bankDetails : option BankDetails
}.

(** [Customer.create], [Retailer.create] and [Wholesaler.create]: the
    models' constructors run validation, hashing and the insert in the
    database layer; each may throw and may change the collection. *)
Class UserModels : Type := {
  Customer_create : RegisterData -> Method World IUser;
  Retailer_create : RegisterData -> Method World IUser;
  Wholesaler_create : RegisterData -> Method World IUser
}.

Definition DuplicateEmail : Error :=
  mkError "User with this email already exists".
Definition BusinessNameRequired : Error :=
  mkError "Business name is required for retailers".
Definition BusinessNameAndGstinRequired : Error :=
  mkError "Business name and GSTIN are required for wholesalers".
Definition BankDetailsRequired : Error :=
  mkError "Bank details are required for wholesalers".
Definition InvalidUserType : Error := mkError "Invalid user type".
Definition EmailVerificationNotImplemented : Error :=
  mkError "Email verification not implemented yet".
Definition PasswordResetNotImplemented : Error :=
  mkError "Password reset not implemented yet".

(** [!s] for an optional string: missing or empty. *)
Definition missing (s : option string) : bool :=
  negb (from_option truthy false s).

(** Modelled from the spec: [jwtService.deleteAllRefreshTokens] of
    jwt.service.ts, which is not among the sources.  The design document
    has "revokeAll(userId): deletes stored refresh token, forcing re-login
    on all devices". *)
Definition deleteAllRefreshTokens (userId : string) : Method World unit :=
  modify (fun w => set_refreshTokens (delete userId (refreshTokens w)) w).

Section Registration.
Context {jwt : JwtService} {models : UserModels} {setters : SchemaSetters}.

(** [AuthService.register] *)
Definition register (data : RegisterData) (now : Z)
    : Method World (IUser * TokenPair) :=
  existingUser ← findOne_email (reg_email data);
  match existingUser with
  | Some _ => throw DuplicateEmail
  | None =>
      user ←
        (if bool_decide (reg_userType data = "CUSTOMER") then
           Customer_create data
         else if bool_decide (reg_userType data = "RETAILER") then
           if missing (businessName data) then throw BusinessNameRequired
           else Retailer_create data
         else if bool_decide (reg_userType data = "WHOLESALER") then
           if missing (businessName data) || missing (gstin data)
           then throw BusinessNameAndGstinRequired
           else if negb (bool_decide (is_Some (bankDetails data)))
           then throw BankDetailsRequired
           else Wholesaler_create data
         else throw InvalidUserType);
      let userId := _id user in
      let tokens :=
        generateTokenPair now
          (mkPayload userId (User.email user) (User.userType user)) in
      storeRefreshToken userId (Jwt.refreshToken tokens);;
      mret (toObject user, tokens)
  end.
End Registration.

(** [AuthService.logoutAll] *)
Definition logoutAll (userId : string) : Method World unit :=
  deleteAllRefreshTokens userId.

(** [AuthService.verifyEmail], [requestPasswordReset], [resetPassword] *)
Definition verifyEmail (token : string) : Method World unit :=
  throw EmailVerificationNotImplemented.
Definition requestPasswordReset (email : string) : Method World unit :=
  throw PasswordResetNotImplemented.
Definition resetPassword (token newPassword : string) : Method World unit :=
  throw PasswordResetNotImplemented.

End Auth.

(** ** Auth controller *)

Module Controller.
Import User Jwt Auth.

(** The JSON envelope [{success, message, data?}] with the HTTP status. *)
Record Response (A : Type) : Type := mkResponse {
  status : Z;
  success : bool;
  message : string;
  data : option A
}.
Arguments mkResponse {A}.
Arguments status {A}.
Arguments success {A}.
Arguments message {A}.
Arguments data {A}.

(** [String.prototype.includes] *)
Definition includes (s sub : string) : bool :=
  match String.index 0 sub s with Some _ => true | None => false end.

(** [a || b] on strings. *)
Definition or_else (a b : string) : string := if truthy a then a else b.

Section Handlers.
Context {jwt : JwtService} {bcrypt : Bcrypt} {setters : SchemaSetters}.

(** [login], POST /api/auth/login *)
Definition login (body : LoginData) (now : Z) (w : World)
    : Response (IUser * TokenPair) * World :=
  match Auth.login body now w with
  | (Return r, w') => (mkResponse 200 true "Login successful" (Some r), w')
  | (Throw error, w') =>
      let statusCode :=
        if includes (Js.message error) "deactivated" then 403 else 401 in
      (mkResponse statusCode false
         (or_else (Js.message error) "Login failed") None, w')
  end.

(** [refreshToken], POST /api/auth/refresh *)
Definition refreshToken (body_refreshToken : string) (now : Z) (w : World)
    : Response TokenPair * World :=
  match Auth.refreshToken body_refreshToken now w with
  | (Return tokens, w') =>
      (mkResponse 200 true "Token refreshed successfully" (Some tokens), w')
  | (Throw error, w') =>
      (mkResponse 401 false
         (or_else (Js.message error) "Token refresh failed") None, w')
  end.
End Handlers.

Section MoreHandlers.
Context {jwt : JwtService} {models : UserModels} {setters : SchemaSetters}.

(** [register], POST /api/auth/register *)
Definition register (body : RegisterData) (now : Z) (w : World)
    : Response (IUser * TokenPair) * World :=
  match Auth.register body now w with
  | (Return r, w') =>
      (mkResponse 201 true "User registered successfully" (Some r), w')
  | (Throw error, w') =>
      let statusCode :=
        if includes (Js.message error) "already exists" then 409 else 400 in
      (mkResponse statusCode false
         (or_else (Js.message error) "Registration failed") None, w')
  end.
End MoreHandlers.

(** [logoutAll], POST /api/auth/logout-all; [req_user] is [req.user]. *)
Definition logoutAll (req_user : option IUser) (w : World)
    : Response unit * World :=
  match req_user with
  | None => (mkResponse 401 false "Not authenticated" None, w)
  | Some user =>
      match Auth.logoutAll (_id user) w with
      | (Return _, w') =>
          (mkResponse 200 true "Logged out from all devices successfully" None, w')
      | (Throw error, w') =>
          (mkResponse 500 false
             (or_else (Js.message error) "Logout from all devices failed") None, w')
      end
  end.

(** [verifyEmail], GET /api/auth/verify-email/:token *)
Definition verifyEmail (token : string) (w : World) : Response unit * World :=
  match Auth.verifyEmail token w with
  | (Return _, w') => (mkResponse 200 true "Email verified successfully" None, w')
  | (Throw error, w') =>
      (mkResponse 400 false
         (or_else (Js.message error) "Email verification failed") None, w')
  end.

(** [forgotPassword], POST /api/auth/forgot-password *)
Definition forgotPassword (email : string) (w : World) : Response unit * World :=
  match Auth.requestPasswordReset email w with
  | (Return _, w') => (mkResponse 200 true "Password reset email sent" None, w')
  | (Throw error, w') =>
      (mkResponse 500 false
         (or_else (Js.message error) "Failed to send password reset email") None, w')
  end.

(** [resetPassword], POST /api/auth/reset-password *)
Definition resetPassword (token newPassword : string) (w : World)
    : Response unit * World :=
  match Auth.resetPassword token newPassword w with
  | (Return _, w') => (mkResponse 200 true "Password reset successfully" None, w')
  | (Throw error, w') =>
      (mkResponse 400 false
         (or_else (Js.message error) "Password reset failed") None, w')
  end.

End Controller.

(** ** Sample documents *)

Module Samples.
Import Inventory.

(** A record with [currentStock = c], [reservedStock = r], selling at
    100 and carrying no discount. *)
Definition stock (c r : Z) : IInventory :=
  mkInventory "p1" "o1" c r 10 (Qc_of_Z 100) [] true 0.

(** The discount of the design document's example: 10 percent, from a
    purchase of 150 on, no cap, valid from [vf] to [vu]. *)
Definition tenPercent (vf vu : Z) : IDiscount :=
  mkDiscount "d1" "TEN" PERCENTAGE (Qc_of_Z 10) (Qc_of_Z 150) 0%Qc vf vu true.

(** A record selling at 100 with that one discount. *)
Definition discounted (vf vu : Z) : IInventory :=
  mkInventory "p1" "o1" 10 0 10 (Qc_of_Z 100) [tenPercent vf vu] true 0.

(** An order of one item in status [s], with the history [h]. *)
Definition order (s : OrderStatus.t) (h : list Order.StatusEntry) : Order.IOrder :=
  Order.mkOrder "ORD-1" "c1" "r1"
    [Order.mkOrderItem "p1" "tea" 2 (Qc_of_Z 100) (Qc_of_Z 200) None]
    Order.ONLINE s PaymentStatus.PENDING (Qc_of_Z 200)
    (Order.mkTrackingInfo s h None None) None.

Definition pendingOrder : Order.IOrder :=
  order OrderStatus.PENDING [Order.mkStatusEntry OrderStatus.PENDING 1 None].

Definition deliveredOrder : Order.IOrder :=
  order OrderStatus.DELIVERED
    [Order.mkStatusEntry OrderStatus.PENDING 1 None;
     Order.mkStatusEntry OrderStatus.DELIVERED 2 None].

(** A stand-in for the signing service, good enough to run the auth paths:
    a token spells out its kind, the user and the issue time; a refresh
    token verifies when it names one of the two sample users. *)
Definition sampleJwt : Jwt.JwtService :=
  {| Jwt.generateTokenPair now p :=
       let stamp := pretty now in
       Jwt.mkTokenPair ("access." +:+ Jwt.userId p +:+ "." +:+ stamp)
                       ("refresh." +:+ Jwt.userId p +:+ "." +:+ stamp);
     Jwt.verifyRefreshToken now t :=
       if String.prefix "refresh.u1." t
       then Return (Jwt.mkPayload "u1" "asha@example.com" User.CUSTOMER)
       else if String.prefix "refresh.u2." t
       then Return (Jwt.mkPayload "u2" "ravi@example.com" User.RETAILER)
       else Throw (mkError "jwt malformed") |}.

(** A stand-in for bcrypt: the hash of [p] is [p] behind a tag. *)
Definition sampleBcrypt : Auth.Bcrypt :=
  {| Auth.bcrypt_compare candidate hash :=
       Return (bool_decide (hash = "hash:" +:+ candidate)) |}.

Definition asha : User.IUser :=
  User.mkUser "u1" "asha@example.com" "+911111111111" (Some "hash:secret1")
    User.CUSTOMER true true 1.

Definition ravi : User.IUser :=
  User.mkUser "u2" "ravi@example.com" "+912222222222" (Some "hash:secret2")
    User.RETAILER true false 1.

(** Two users, Asha active and Ravi deactivated; Asha holds the refresh
    token issued to her at time 100. *)
Definition world : Auth.World :=
  Auth.mkWorld [asha; ravi] {[ "u1" := "refresh.u1.100" ]}.

End Samples.

(** ** Notions used to state the further properties *)

Module Derived.
Import Inventory.

(** A stand-in for the runtime's string methods, on ASCII text: letters
    change case, blanks at either end are dropped. *)
Definition asciiCase (lo hi : N) (shift : N -> N) (a : Ascii.ascii) : Ascii.ascii :=
  let n := Ascii.N_of_ascii a in
  if ((lo <=? n) && (n <=? hi))%N then Ascii.ascii_of_N (shift n) else a.

Fixpoint mapAscii (f : Ascii.ascii -> Ascii.ascii) (s : string) : string :=
  match s with
  | EmptyString => EmptyString
  | String a s => String (f a) (mapAscii f s)
  end.

Fixpoint dropBlanks (s : string) : string :=
  match s with
  | String a s' => if Ascii.eqb a " "%char then dropBlanks s' else s
  | EmptyString => s
  end.

Definition trimBlanks (s : string) : string :=
  String.rev (dropBlanks (String.rev (dropBlanks s))).

Definition sampleSetters : SchemaSetters :=
  {| uppercase_trim s :=
       mapAscii (asciiCase 97 122 (fun n => n - 32)%N) (trimBlanks s);
     lowercase_trim s :=
       mapAscii (asciiCase 65 90 (fun n => n + 32)%N) (trimBlanks s) |}.


(** The schema's [min: 0] on [value] and [minPurchase]. *)
Definition nonnegDiscount (d : IDiscount) : Prop :=
  (0 ≤ value d)%Qc /\ (0 ≤ minPurchase d)%Qc.



End Derived.

Module OrderDerived.
Import Order.

(** The two status fields and the end of the history tell the same
    status. *)
Definition consistent (this : IOrder) : Prop :=
  currentStatus (trackingInfo this) = status this
  /\ entryStatus <$> last (statusHistory (trackingInfo this)) = Some (status this).

(** One [updateStatus] call: the new status, the note and the time. *)
Definition StatusUpdate : Type := OrderStatus.t * option string * Z.

Definition entryOf (u : StatusUpdate) : StatusEntry :=
  mkStatusEntry u.1.1 u.2 u.1.2.

(** [updateStatus] called once per element, in order. *)
Fixpoint updateAll (updates : list StatusUpdate) : Method IOrder unit :=
  match updates with
  | [] => mret tt
  | u :: updates => updateStatus u.1.1 u.1.2 u.2;; updateAll updates
  end.

(** An order in status [s] holding the items [its]. *)
Definition basket (its : list IOrderItem) : IOrder :=
  mkOrder "ORD-2" "c1" "r1" its ONLINE OrderStatus.PENDING
    PaymentStatus.PENDING 0%Qc
    (mkTrackingInfo OrderStatus.PENDING
       [mkStatusEntry OrderStatus.PENDING 1 None] None None) None.

Definition tea : IOrderItem :=
  mkOrderItem "p1" "tea" 2 (Qc_of_Z 100) (Qc_of_Z 200) None.
Definition rice : IOrderItem :=
  mkOrderItem "p2" "rice" 3 (Qc_of_Z 50) (Qc_of_Z 150) None.

End OrderDerived.

Module ProductDerived.
Import Product.

(** A product rated [avg] over [n] reviews, with the images [imgs]. *)
Definition rated (avg : Qc) (n : Z) (imgs : list string) : IProduct :=
  mkProduct "Assam tea" "Loose leaf" (mkCategory "c1" "Tea" None None) ∅
    imgs (Qc_of_Z 100) "packet" ["tea"] true "u2" avg n.

End ProductDerived.

Module AuthDerived.
Import User Jwt Auth.

(** A stand-in for the three model constructors: the new user gets the
    id "u9" and is appended to the collection. *)
Definition sampleCreate (ut : UserType) (data : RegisterData) : Method World IUser :=
  fun w =>
    let user := mkUser "u9" (reg_email data) (reg_profile_phone data)
                  (Some ("hash:" +:+ reg_password data)) ut false true 1 in
    (Return user, set_users (users w ++ [user]) w).

Definition sampleModels : UserModels :=
  {| Customer_create := sampleCreate CUSTOMER;
     Retailer_create := sampleCreate RETAILER;
     Wholesaler_create := sampleCreate WHOLESALER |}.

Definition signup (email userType : string) (business : option string) : RegisterData :=
  mkRegisterData email "secret9" userType "Nila" "+913333333333" business None None.

End AuthDerived.

(** ** The token service as the design document describes it

    jwt.service.ts is not among the sources.  The auth paths above take
    it as an interface; this instance follows the design document, and
    tokens are written out in a readable form that [verifyRefreshToken]
    reads back. *)

Module JwtModel.
Import User Jwt Auth.












End JwtModel.

(** * Properties *)

(** ** Saving *)

Module JsFacts.

Lemma saveValidated_after {S} (validators : list (Validator S)) (s : S) :
  after (saveValidated validators s) = s.
Proof. unfold saveValidated. by destruct (failing validators s). Qed.


Lemma saveValidated_returns {S} (validators : list (Validator S)) (s : S) :
  completion (saveValidated validators s) = Return tt
  <-> failing validators s = [].
Proof.
  unfold saveValidated. destruct (failing validators s); cbn; split;
    congruence.
Qed.

End JsFacts.

(** ** Stock reservation *)

Module InventoryProps.
Import Inventory Samples.

(** Unfolds a method applied to its receiver down to the branches. *)
Ltac run_method :=
  cbv [updateStock reserveStock releaseReservedStock confirmReservedStock
       mbind mret Method_bind Method_ret bind ret throw get modify when save
       saveValidated failing min_currentStock min_reservedStock
       completion after];
  cbn [fst snd currentStock reservedStock set_currentStock
       set_reservedStock set_lastRestocked List.filter map negb].


Lemma reserveStock_enough (this : IInventory) (quantity : Z) :
  currentStock this - reservedStock this >= quantity ->
  0 <= reservedStock this + quantity ->
  reserveStock quantity this
  = (Return true, set_reservedStock (reservedStock this + quantity) this).
Proof.
  intros Hge Hok. run_method.
  destruct (Z.geb_spec (currentStock this - reservedStock this) quantity);
    [| lia].
  destruct (Z.leb_spec 0 (reservedStock this + quantity)); [reflexivity | lia].
Qed.

Lemma reserveStock_rejected (this : IInventory) (quantity : Z) :
  currentStock this - reservedStock this >= quantity ->
  reservedStock this + quantity < 0 ->
  reserveStock quantity this
  = (Throw (ValidationError ["reservedStock"]),
     set_reservedStock (reservedStock this + quantity) this).
Proof.
  intros Hge Hneg. run_method.
  destruct (Z.geb_spec (currentStock this - reservedStock this) quantity);
    [| lia].
  destruct (Z.leb_spec 0 (reservedStock this + quantity)); [lia | reflexivity].
Qed.

Lemma reserveStock_short (this : IInventory) (quantity : Z) :
  currentStock this - reservedStock this < quantity ->
  reserveStock quantity this = (Return false, this).
Proof.
  intros Hlt. run_method.
  destruct (Z.geb_spec (currentStock this - reservedStock this) quantity);
    [lia | reflexivity].
Qed.

Lemma reserveStock_after (this : IInventory) (quantity : Z) :
  currentStock this - reservedStock this >= quantity ->
  after (reserveStock quantity this)
  = set_reservedStock (reservedStock this + quantity) this.
Proof.
  intros Hge. destruct (Z_lt_ge_dec (reservedStock this + quantity) 0).
  - by rewrite reserveStock_rejected.
  - by rewrite reserveStock_enough by lia.
Qed.

Lemma reserveStock_true_inv (this : IInventory) (quantity : Z) :
  completion (reserveStock quantity this) = Return true ->
  currentStock this - reservedStock this >= quantity
  /\ 0 <= reservedStock this + quantity.
Proof.
  destruct (Z_lt_ge_dec (currentStock this - reservedStock this) quantity)
    as [Hlt | Hge]; [rewrite (reserveStock_short _ _ Hlt); discriminate |].
  destruct (Z_lt_ge_dec (reservedStock this + quantity) 0) as [Hneg | Hok];
    [rewrite (reserveStock_rejected _ _ Hge Hneg); discriminate |].
  intros _. lia.
Qed.

Lemma confirmReservedStock_enough (this : IInventory) (quantity : Z) :
  reservedStock this >= quantity ->
  0 <= currentStock this - quantity ->
  confirmReservedStock quantity this
  = (Return tt,
     set_currentStock (currentStock this - quantity)
       (set_reservedStock (reservedStock this - quantity) this)).
Proof.
  intros Hge Hok. run_method.
  destruct (Z.geb_spec (reservedStock this) quantity); [| lia].
  destruct (Z.leb_spec 0 (currentStock this - quantity)); [| lia].
  destruct (Z.leb_spec 0 (reservedStock this - quantity)); [reflexivity | lia].
Qed.

Lemma confirmReservedStock_rejected (this : IInventory) (quantity : Z) :
  reservedStock this >= quantity ->
  currentStock this - quantity < 0 ->
  confirmReservedStock quantity this
  = (Throw (ValidationError ["currentStock"]),
     set_currentStock (currentStock this - quantity)
       (set_reservedStock (reservedStock this - quantity) this)).
Proof.
  intros Hge Hneg. run_method.
  destruct (Z.geb_spec (reservedStock this) quantity); [| lia].
  destruct (Z.leb_spec 0 (currentStock this - quantity)); [lia |].
  destruct (Z.leb_spec 0 (reservedStock this - quantity)); [reflexivity | lia].
Qed.

Lemma confirmReservedStock_short (this : IInventory) (quantity : Z) :
  reservedStock this < quantity ->
  confirmReservedStock quantity this = (Throw InsufficientReservation, this).
Proof.
  intros Hlt. run_method.
  destruct (Z.geb_spec (reservedStock this) quantity); [lia | reflexivity].
Qed.

Lemma confirmReservedStock_after (this : IInventory) (quantity : Z) :
  reservedStock this >= quantity ->
  after (confirmReservedStock quantity this)
  = set_currentStock (currentStock this - quantity)
      (set_reservedStock (reservedStock this - quantity) this).
Proof.
  intros Hge. destruct (Z_lt_ge_dec (currentStock this - quantity) 0).
  - by rewrite confirmReservedStock_rejected.
  - by rewrite confirmReservedStock_enough by lia.
Qed.

Lemma releaseReservedStock_eq (this : IInventory) (quantity : Z) :
  releaseReservedStock quantity this
  = (Return tt,
     set_reservedStock (Z.max 0 (reservedStock this - quantity)) this).
Proof.
  run_method. unfold Math_max.
  destruct (Z.leb_spec 0 (Z.max 0 (reservedStock this - quantity)));
    [reflexivity | lia].
Qed.




(** C2. [reserveStock] keeps [reservedStock <= currentStock]: from a
    record that satisfies it, the record after [reserveStock(qty)]
    satisfies it too, for every [qty] and either answer. *)
Theorem reserveStock_keeps_invariant (this : IInventory) (quantity : Z) :
  reservedStock this <= currentStock this ->
  reservedStock (after (reserveStock quantity this))
    <= currentStock (after (reserveStock quantity this)).
Proof.
  intros Hinv.
  destruct (Z_lt_ge_dec (currentStock this - reservedStock this) quantity)
    as [Hlt | Hge].
  - rewrite (reserveStock_short _ _ Hlt). exact Hinv.
  - rewrite (reserveStock_after _ _ Hge). cbn. lia.
Qed.

Lemma reserveStock_keeps_invariant_witness :
  reservedStock (stock 10 4) <= currentStock (stock 10 4)
  /\ reservedStock (after (reserveStock 6 (stock 10 4)))
     <= currentStock (after (reserveStock 6 (stock 10 4))).
Proof.
  split; [cbn; lia | apply (reserveStock_keeps_invariant (stock 10 4) 6); cbn; lia].
Defined.







End InventoryProps.

(** ** Pricing *)

Module PricingProps.
Import Inventory Samples.
Local Open Scope Qc_scope.

Lemma Math_maxQ_floor (p : Qc) :
  Math_maxQ 0 p = if bool_decide (p < 0) then 0 else p.
Proof.
  unfold Math_maxQ. destruct (decide (0 ≤ p)) as [Hle | Hnle].
  - rewrite bool_decide_eq_false_2; [reflexivity | by apply Qcle_not_lt].
  - rewrite bool_decide_eq_true_2; [reflexivity | by apply Qcnot_le_lt].
Qed.

Lemma Math_maxQ_nonneg (p : Qc) : 0 ≤ Math_maxQ 0 p.
Proof.
  unfold Math_maxQ. destruct (decide (0 ≤ p)); [assumption | apply Qcle_refl].
Qed.

Lemma Math_minQ_cap (a m : Qc) :
  Math_minQ a m = if bool_decide (m < a) then m else a.
Proof.
  unfold Math_minQ. destruct (decide (a ≤ m)) as [Hle | Hnle].
  - rewrite bool_decide_eq_false_2; [reflexivity | by apply Qcle_not_lt].
  - rewrite bool_decide_eq_true_2; [reflexivity | by apply Qcnot_le_lt].
Qed.

Lemma discountAmount_capped (p : Qc) (d : IDiscount) :
  discountAmount p d = capped (uncapped p d) d.
Proof.
  unfold discountAmount, capped, uncapped.
  rewrite Math_minQ_cap. destruct (type d); reflexivity.
Qed.

Lemma isActiveDiscount_closed (now : Z) (d : IDiscount) :
  isActiveDiscount now d = isActive d && closedWindow now d.
Proof.
  unfold isActiveDiscount, closedWindow.
  rewrite Z.geb_leb. destruct (isActive d); reflexivity.
Qed.

(** The filter followed by the loop is one pass over the list that skips
    what the filter drops. *)
Lemma loop_applyInOrder (now : Z) (ds : list IDiscount) (p : Qc) :
  fold_left applyDiscount (List.filter (isActiveDiscount now) ds) p
  = applyInOrder closedWindow now ds p.
Proof.
  revert p. induction ds as [| d ds IH]; intros p; [reflexivity |].
  cbn [List.filter applyInOrder]. rewrite isActiveDiscount_closed.
  destruct (isActive d && closedWindow now d); cbn [andb fold_left].
  - rewrite IH. unfold applyDiscount. rewrite discountAmount_capped.
    destruct (bool_decide (minPurchase d ≤ p)); reflexivity.
  - apply IH.
Qed.

Lemma applyDiscount_other_type (p : Qc) (d : IDiscount) :
  altersPrice d = false -> applyDiscount p d = p.
Proof.
  unfold altersPrice, applyDiscount, discountAmount. intros Hty.
  assert (Hzero : (if bool_decide (0 < maxDiscount d)
                   then Math_minQ 0 (maxDiscount d) else 0) = 0).
  { case_bool_decide as Hpos; [| reflexivity].
    unfold Math_minQ. rewrite decide_True; [reflexivity |].
    by apply Qclt_le_weak. }
  destruct (bool_decide (minPurchase d ≤ p)); [| reflexivity].
  destruct (type d); try discriminate; rewrite Hzero; ring.
Qed.

Lemma loop_skips_other_types (now : Z) (ds : list IDiscount) (p : Qc) :
  fold_left applyDiscount (List.filter (isActiveDiscount now) ds) p
  = fold_left applyDiscount
      (List.filter (isActiveDiscount now) (List.filter altersPrice ds)) p.
Proof.
  revert p. induction ds as [| d ds IH]; intros p; [reflexivity |].
  cbn [List.filter].
  destruct (altersPrice d) eqn:Hty; cbn [List.filter];
    destruct (isActiveDiscount now d); cbn [fold_left]; try apply IH.
  rewrite (applyDiscount_other_type _ _ Hty). apply IH.
Qed.

Lemma tenPercent_price (vf vu now : Z) :
  (vf <= now <= vu)%Z ->
  calculateFinalPrice (Some 2%Z) now (discounted vf vu) = Qc_of_Z 180.
Proof.
  intros [Hfrom Huntil].
  unfold calculateFinalPrice, discounted, tenPercent.
  cbn [discounts sellingPrice default List.filter].
  unfold isActiveDiscount. cbn [isActive validFrom validUntil andb].
  rewrite (proj2 (Z.leb_le vf now) Hfrom), (proj2 (Z.geb_le vu now) Huntil).
  apply Qc_is_canon. vm_compute. reflexivity.
Qed.

(** C6, as worded: the price is the rule of the design document read with
    the half-open window [validFrom <= now < validUntil].  It fails at
    [now = validUntil]: the method still applies the discount there
    (200 less 10 percent), the rule does not. *)
Lemma calculateFinalPrice_applies_at_validUntil :
  calculateFinalPrice (Some 2%Z) 1000 (discounted 0 1000) = Qc_of_Z 180
  /\ priceFor halfOpenWindow 2 1000 (discounted 0 1000) = Qc_of_Z 200
  /\ calculateFinalPrice (Some 2%Z) 1000 (discounted 0 1000)
     <> priceFor halfOpenWindow 2 1000 (discounted 0 1000).
Proof.
  assert (Hcode : calculateFinalPrice (Some 2%Z) 1000 (discounted 0 1000)
                  = Qc_of_Z 180) by (apply tenPercent_price; lia).
  assert (Hrule : priceFor halfOpenWindow 2 1000 (discounted 0 1000)
                  = Qc_of_Z 200) by (apply Qc_is_canon; vm_compute; reflexivity).
  split; [exact Hcode | split; [exact Hrule |]].
  rewrite Hcode, Hrule. intros Heq. apply Z2Qc_inj in Heq. discriminate.
Qed.

(** C6, amended: the window is closed, [validFrom <= now <= validUntil].
    [calculateFinalPrice(qty)] starts from [sellingPrice*qty] and applies,
    in list order, every discount that is active, inside the closed window
    and whose [minPurchase] does not exceed the running price, each capped
    by its own [maxDiscount] when that is positive; the result is never
    negative; discounts of the types BUY_ONE_GET_ONE and FREE_SHIPPING can
    be dropped without changing it; and at any time inside the window of
    the 10-percent discount the example record sells 2 for 180. *)
Theorem calculateFinalPrice_closed_window
    (this : IInventory) (quantity now : Z) :
  calculateFinalPrice (Some quantity) now this
    = priceFor closedWindow quantity now this
  /\ 0 ≤ calculateFinalPrice (Some quantity) now this
  /\ calculateFinalPrice (Some quantity) now this
     = calculateFinalPrice (Some quantity) now
         (set_discounts (List.filter altersPrice (discounts this)) this)
  /\ (forall vf vu : Z,
        (vf <= now <= vu)%Z ->
        calculateFinalPrice (Some 2%Z) now (discounted vf vu) = Qc_of_Z 180).
Proof.
  repeat split.
  - unfold calculateFinalPrice, priceFor. cbn [default].
    rewrite loop_applyInOrder. apply Math_maxQ_floor.
  - apply Math_maxQ_nonneg.
  - unfold calculateFinalPrice. cbn [default discounts sellingPrice set_discounts].
    f_equal. apply loop_skips_other_types.
  - intros vf vu. apply tenPercent_price.
Qed.

Lemma calculateFinalPrice_closed_window_witness :
  (0 <= 500 <= 1000)%Z
  /\ calculateFinalPrice (Some 2%Z) 500 (discounted 0 1000) = Qc_of_Z 180.
Proof.
  split; [lia |].
  apply (proj2 (proj2 (proj2
           (calculateFinalPrice_closed_window (discounted 0 1000) 2 500)))
         0%Z 1000%Z).
  lia.
Defined.

End PricingProps.

(** ** Order status *)

Module OrderProps.
Import Order Samples.

Lemma updateStatus_eq (this : IOrder) (newStatus : OrderStatus.t)
    (notes : option string) (now : Z) :
  updateStatus newStatus notes now this
  = (Return tt,
     set_trackingInfo
       (push_statusHistory (mkStatusEntry newStatus now notes)
          (set_currentStatus newStatus (trackingInfo this)))
       (set_status newStatus this)).
Proof. reflexivity. Qed.

Lemma cancel_delivered (this : IOrder) (reason : option string) (now : Z) :
  status this = OrderStatus.DELIVERED ->
  cancel reason now this = (Throw CannotCancelDelivered, this).
Proof.
  intros Hst. unfold cancel. cbv [mbind Method_bind bind get].
  rewrite bool_decide_eq_true_2 by exact Hst. reflexivity.
Qed.

Lemma cancel_not_delivered (this : IOrder) (reason : option string) (now : Z) :
  status this <> OrderStatus.DELIVERED ->
  cancel reason now this
  = (Return tt,
     set_paymentStatus PaymentStatus.CANCELLED
       (after (updateStatus OrderStatus.CANCELLED reason now this))).
Proof.
  intros Hst. unfold cancel. cbv [mbind Method_bind bind get].
  rewrite bool_decide_eq_false_2 by exact Hst. reflexivity.
Qed.

(** C7. [cancel()] throws 'Cannot cancel delivered order' exactly when
    the status is DELIVERED, leaving the order as it was; at any other
    status it returns, having appended a CANCELLED entry to the status
    history and set [status], [trackingInfo.currentStatus] to CANCELLED
    and [paymentStatus] to CANCELLED.  A PENDING order is such a case. *)
Theorem cancel_spec (this : IOrder) (reason : option string) (now : Z) :
  (completion (cancel reason now this) = Throw CannotCancelDelivered
     <-> status this = OrderStatus.DELIVERED)
  /\ (status this = OrderStatus.DELIVERED ->
      after (cancel reason now this) = this)
  /\ (completion (cancel reason now this) = Return tt
      <-> status this <> OrderStatus.DELIVERED)
  /\ (status this <> OrderStatus.DELIVERED ->
      let this' := after (cancel reason now this) in
      statusHistory (trackingInfo this')
        = (statusHistory (trackingInfo this)
             ++ [mkStatusEntry OrderStatus.CANCELLED now reason])%list
      /\ status this' = OrderStatus.CANCELLED
      /\ currentStatus (trackingInfo this') = OrderStatus.CANCELLED
      /\ paymentStatus this' = PaymentStatus.CANCELLED)
  /\ (status this = OrderStatus.PENDING ->
      completion (cancel reason now this) = Return tt
      /\ paymentStatus (after (cancel reason now this)) = PaymentStatus.CANCELLED).
Proof.
  destruct (decide (status this = OrderStatus.DELIVERED)) as [Hd | Hnd].
  - rewrite (cancel_delivered _ _ _ Hd). cbn.
    repeat split; try discriminate; try congruence; try tauto.
    all: intros Hp; rewrite Hp in Hd; discriminate.
  - rewrite (cancel_not_delivered _ _ _ Hnd), updateStatus_eq. cbn.
    repeat split; try discriminate; try congruence; try tauto.
Qed.

Lemma cancel_spec_witness :
  status pendingOrder = OrderStatus.PENDING
  /\ completion (cancel None 5 pendingOrder) = Return tt
  /\ paymentStatus (after (cancel None 5 pendingOrder)) = PaymentStatus.CANCELLED.
Proof.
  split; [reflexivity |].
  apply (proj2 (proj2 (proj2 (proj2 (cancel_spec pendingOrder None 5))))).
  reflexivity.
Defined.

(** C8, as worded: an order in a terminal state is immutable.  It fails
    on a DELIVERED order: [updateStatus(PENDING)] returns, the status
    is PENDING again and the history has one entry more. *)
Lemma updateStatus_reopens_delivered :
  terminal (status deliveredOrder) = true
  /\ completion (updateStatus OrderStatus.PENDING None 7 deliveredOrder) = Return tt
  /\ status (after (updateStatus OrderStatus.PENDING None 7 deliveredOrder))
     = OrderStatus.PENDING
  /\ statusHistory
       (trackingInfo (after (updateStatus OrderStatus.PENDING None 7 deliveredOrder)))
     = (statusHistory (trackingInfo deliveredOrder)
          ++ [mkStatusEntry OrderStatus.PENDING 7 None])%list
  /\ ~ terminal_immutable.
Proof.
  repeat split.
  intros Himm.
  destruct (Himm deliveredOrder eq_refl) as [_ Hupd].
  destruct (Hupd OrderStatus.PENDING None 7) as [Hst _].
  discriminate Hst.
Qed.

(** C8, amended: only [cancel] on a DELIVERED order is refused, and it
    leaves status and history as they were.  [updateStatus] has no guard:
    on every order, terminal or not, it returns with the status set to
    the new one and exactly one entry appended to the history, the
    earlier entries kept.  [canCancel] is false in exactly the three
    terminal states. *)
Theorem terminal_states_as_coded (this : IOrder) :
  (status this = OrderStatus.DELIVERED ->
   forall reason now,
     returns (completion (cancel reason now this)) = false
     /\ unchanged this (after (cancel reason now this)))
  /\ (forall newStatus notes now,
        completion (updateStatus newStatus notes now this) = Return tt
        /\ status (after (updateStatus newStatus notes now this)) = newStatus
        /\ statusHistory (trackingInfo (after (updateStatus newStatus notes now this)))
           = (statusHistory (trackingInfo this)
                ++ [mkStatusEntry newStatus now notes])%list)
  /\ canCancel this = negb (terminal (status this)).
Proof.
  split; [| split].
  - intros Hd reason now. rewrite (cancel_delivered _ _ _ Hd).
    repeat split.
  - intros newStatus notes now. rewrite updateStatus_eq. repeat split.
  - unfold canCancel. destruct (status this); reflexivity.
Qed.

Lemma terminal_states_as_coded_witness :
  status deliveredOrder = OrderStatus.DELIVERED
  /\ returns (completion (cancel None 9 deliveredOrder)) = false
  /\ unchanged deliveredOrder (after (cancel None 9 deliveredOrder)).
Proof.
  split; [reflexivity |].
  apply (proj1 (terminal_states_as_coded deliveredOrder)). reflexivity.
Defined.

End OrderProps.

(** ** Login and token rotation *)

Module AuthProps.
Import User Jwt Auth Samples JwtModel.

Ltac run_service :=
  cbv [Auth.login Auth.refreshToken findOne_email findById getRefreshToken
       storeRefreshToken
       mbind mret Method_bind Method_ret bind ret throw get modify save
       completion after];
  cbn [fst snd users refreshTokens set_users set_refreshTokens].

Section Login.
Context {jwt : JwtService} {bcrypt : Bcrypt} {setters : SchemaSetters}.

Lemma login_unknown_email (data : LoginData) (now : Z) (w : World) :
  find (fun u => bool_decide (User.email u = lowercase_trim (login_email data))) (users w) = None ->
  Auth.login data now w = (Throw InvalidCredentials, w).
Proof. intros Hnone. run_service. rewrite Hnone. reflexivity. Qed.

Lemma login_deactivated (data : LoginData) (now : Z) (w : World) (user : IUser) :
  find (fun u => bool_decide (User.email u = lowercase_trim (login_email data))) (users w) = Some user ->
  isActive user = false ->
  Auth.login data now w = (Throw AccountDeactivated, w).
Proof. intros Hsome Hoff. run_service. rewrite Hsome, Hoff. reflexivity. Qed.

Lemma login_wrong_password (data : LoginData) (now : Z) (w : World) (user : IUser) :
  find (fun u => bool_decide (User.email u = lowercase_trim (login_email data))) (users w) = Some user ->
  isActive user = true ->
  comparePassword user (login_password data) = false ->
  Auth.login data now w = (Throw InvalidCredentials, w).
Proof.
  intros Hsome Hon Hpw. run_service. rewrite Hsome, Hon. cbn [negb].
  rewrite Hpw. reflexivity.
Qed.

Lemma login_right_password (data : LoginData) (now : Z) (w : World) (user : IUser) :
  find (fun u => bool_decide (User.email u = lowercase_trim (login_email data))) (users w) = Some user ->
  isActive user = true ->
  comparePassword user (login_password data) = true ->
  returns (completion (Auth.login data now w)) = true.
Proof.
  intros Hsome Hon Hpw. run_service. rewrite Hsome, Hon. cbn [negb].
  rewrite Hpw. reflexivity.
Qed.

Lemma login_throws_deactivated_inv (data : LoginData) (now : Z) (w : World) :
  completion (Auth.login data now w) = Throw AccountDeactivated ->
  exists user,
    find (fun u => bool_decide (User.email u = lowercase_trim (login_email data))) (users w) = Some user
    /\ isActive user = false.
Proof.
  destruct (find (fun u => bool_decide (User.email u = lowercase_trim (login_email data))) (users w))
    as [user |] eqn:Hfind.
  - destruct (isActive user) eqn:Hact.
    + destruct (comparePassword user (login_password data)) eqn:Hpw.
      * pose proof (login_right_password data now w user Hfind Hact Hpw) as Hret.
        intros Hthrow. rewrite Hthrow in Hret. discriminate.
      * rewrite (login_wrong_password data now w user Hfind Hact Hpw).
        cbn. discriminate.
    + intros _. exists user. split; [reflexivity | exact Hact].
  - rewrite (login_unknown_email data now w Hfind). cbn. discriminate.
Qed.

(** C9. With one password [p]: logging in with an email no user has and
    logging in with the email of an active user whose password is not [p]
    both throw the same error, 'Invalid email or password', leave the
    world as it was, and the controller answers both with one and the same
    response (401); and whenever [login] throws the deactivation error,
    a user with that email exists and is inactive.  An email is looked up
    as the query does it, lowercased and trimmed by the setters of the
    path. *)
Theorem login_failures_indistinguishable
    (w : World) (p unknownEmail knownEmail : string) (now : Z) (user : IUser) :
  find (fun u => bool_decide (User.email u = lowercase_trim unknownEmail)) (users w) = None ->
  find (fun u => bool_decide (User.email u = lowercase_trim knownEmail)) (users w) = Some user ->
  isActive user = true ->
  comparePassword user p = false ->
  (Auth.login (mkLoginData unknownEmail p) now w = (Throw InvalidCredentials, w)
   /\ Auth.login (mkLoginData knownEmail p) now w = (Throw InvalidCredentials, w)
   /\ Controller.login (mkLoginData unknownEmail p) now w
      = Controller.login (mkLoginData knownEmail p) now w
   /\ Controller.status (fst (Controller.login (mkLoginData knownEmail p) now w)) = 401)
  /\ (forall data now' w',
        completion (Auth.login data now' w') = Throw AccountDeactivated ->
        exists u,
          find (fun u => bool_decide (User.email u = lowercase_trim (login_email data))) (users w') = Some u
          /\ isActive u = false).
Proof.
  intros Hnone Hsome Hon Hpw. split.
  - pose proof (login_unknown_email (mkLoginData unknownEmail p) now w Hnone) as Hu.
    pose proof (login_wrong_password (mkLoginData knownEmail p) now w user
                  Hsome Hon Hpw) as Hk.
    unfold Controller.login. rewrite Hu, Hk. repeat split; reflexivity.
  - intros data now' w'. apply login_throws_deactivated_inv.
Qed.

End Login.

Lemma login_failures_indistinguishable_witness :
  Auth.login (jwt := sampleJwt) (bcrypt := sampleBcrypt)
    (setters := Derived.sampleSetters)
    (mkLoginData "Nobody@example.com" "guess") 7 world
  = (Throw InvalidCredentials, world)
  /\ Auth.login (jwt := sampleJwt) (bcrypt := sampleBcrypt)
       (setters := Derived.sampleSetters)
       (mkLoginData " ASHA@example.com" "guess") 7 world
     = (Throw InvalidCredentials, world).
Proof.
  destruct (login_failures_indistinguishable
              (jwt := sampleJwt) (bcrypt := sampleBcrypt)
              (setters := Derived.sampleSetters)
              world "guess" "Nobody@example.com" " ASHA@example.com" 7 asha)
    as [[Hu [Hk _]] _]; [reflexivity | reflexivity | reflexivity | reflexivity |].
  split; [exact Hu | exact Hk].
Defined.

Section Rotation.
Context {jwt : JwtService}.



End Rotation.



End AuthProps.

(** ** Further properties of the stock counters *)

Module InventoryLaws.
Import Inventory Samples InventoryProps.

(** X1. Confirming never changes the stock on offer: [availableStock]
    after [confirmReservedStock(qty)] is what it was, whether the call
    returns or throws. *)
Theorem confirm_keeps_availableStock (this : IInventory) (quantity : Z) :
  availableStock (after (confirmReservedStock quantity this))
  = availableStock this.
Proof.
  unfold availableStock.
  destruct (Z_lt_ge_dec (reservedStock this) quantity) as [Hlt | Hge].
  - rewrite (confirmReservedStock_short _ _ Hlt). reflexivity.
  - rewrite (confirmReservedStock_after _ _ Hge). cbn. lia.
Qed.

(** X2. For a quantity that is not negative, [confirmReservedStock]
    keeps [0 <= reservedStock <= currentStock]. *)
Theorem confirm_keeps_counters_valid (this : IInventory) (quantity : Z) :
  0 <= quantity ->
  0 <= reservedStock this <= currentStock this ->
  0 <= reservedStock (after (confirmReservedStock quantity this))
    <= currentStock (after (confirmReservedStock quantity this)).
Proof.
  intros Hq Hinv.
  destruct (Z_lt_ge_dec (reservedStock this) quantity) as [Hlt | Hge].
  - rewrite (confirmReservedStock_short _ _ Hlt). exact Hinv.
  - rewrite (confirmReservedStock_after _ _ Hge). cbn. lia.
Qed.

Lemma confirm_keeps_counters_valid_witness :
  0 <= reservedStock (after (confirmReservedStock 3 (stock 10 4)))
    <= currentStock (after (confirmReservedStock 3 (stock 10 4))).
Proof.
  apply (confirm_keeps_counters_valid (stock 10 4) 3); cbn; lia.
Defined.

(** X3. For a quantity that is not negative, [releaseReservedStock]
    keeps [0 <= reservedStock <= currentStock], does not touch
    [currentStock] and never lowers [availableStock]. *)
Theorem release_keeps_counters_valid (this : IInventory) (quantity : Z) :
  0 <= quantity ->
  0 <= reservedStock this <= currentStock this ->
  0 <= reservedStock (after (releaseReservedStock quantity this))
    <= currentStock (after (releaseReservedStock quantity this))
  /\ currentStock (after (releaseReservedStock quantity this)) = currentStock this
  /\ availableStock this
     <= availableStock (after (releaseReservedStock quantity this)).
Proof.
  intros Hq Hinv. rewrite releaseReservedStock_eq.
  unfold availableStock. cbn. lia.
Qed.

Lemma release_keeps_counters_valid_witness :
  0 <= reservedStock (after (releaseReservedStock 6 (stock 10 4)))
    <= currentStock (after (releaseReservedStock 6 (stock 10 4)))
  /\ currentStock (after (releaseReservedStock 6 (stock 10 4)))
     = currentStock (stock 10 4)
  /\ availableStock (stock 10 4)
     <= availableStock (after (releaseReservedStock 6 (stock 10 4))).
Proof.
  apply (release_keeps_counters_valid (stock 10 4) 6); cbn; lia.
Defined.

(** X4. Reserve, then confirm: on a record whose [reservedStock] is not
    negative, when [reserveStock(qty)] answers [true] the following
    [confirmReservedStock(qty)] returns, [reservedStock] is back at its
    value before the reservation and [currentStock] is lower by [qty]. *)
Theorem reserve_then_confirm (this : IInventory) (quantity : Z) :
  0 <= reservedStock this ->
  completion (reserveStock quantity this) = Return true ->
  let sold := confirmReservedStock quantity (after (reserveStock quantity this)) in
  completion sold = Return tt
  /\ reservedStock (after sold) = reservedStock this
  /\ currentStock (after sold) = currentStock this - quantity.
Proof.
  intros Hr Htrue. apply reserveStock_true_inv in Htrue as [Hge Hok].
  rewrite (reserveStock_after _ _ Hge).
  rewrite confirmReservedStock_enough by (cbn; lia). cbn.
  repeat split; lia.
Qed.

Lemma reserve_then_confirm_witness :
  completion (confirmReservedStock 5 (after (reserveStock 5 (stock 10 4))))
  = Return tt
  /\ reservedStock
       (after (confirmReservedStock 5 (after (reserveStock 5 (stock 10 4))))) = 4
  /\ currentStock
       (after (confirmReservedStock 5 (after (reserveStock 5 (stock 10 4))))) = 5.
Proof.
  apply (reserve_then_confirm (stock 10 4) 5); [cbn; lia | reflexivity].
Defined.



(** X6. With a reorder level that is not negative (the schema's
    [min: 0]), [isLowStock] holds exactly when [stockStatus] is not
    IN_STOCK, and [stockStatus] is OUT_OF_STOCK exactly at
    [currentStock = 0]. *)
Theorem stockStatus_agrees_with_isLowStock (this : IInventory) :
  0 <= reorderLevel this ->
  (isLowStock this = true <-> stockStatus this <> IN_STOCK)
  /\ (stockStatus this = OUT_OF_STOCK <-> currentStock this = 0).
Proof.
  intros Hlevel. unfold stockStatus, isLowStock.
  destruct (Z.eqb_spec (currentStock this) 0) as [Hz | Hnz];
    destruct (Z.leb_spec (currentStock this) (reorderLevel this)) as [Hle | Hgt];
    repeat split; intros; try discriminate; try congruence; try lia.
Qed.

Lemma stockStatus_agrees_with_isLowStock_witness :
  isLowStock (stock 0 0) = true <-> stockStatus (stock 0 0) <> IN_STOCK.
Proof.
  apply (stockStatus_agrees_with_isLowStock (stock 0 0)). cbn. lia.
Defined.

End InventoryLaws.

(** ** Further properties of discounts and prices *)

Module PricingLaws.
Import Inventory Samples Derived PricingProps.
Local Open Scope Qc_scope.

(** [a <= b] from [0 <= b - a], the difference given in normal form. *)
Ltac by_difference d :=
  apply Qcle_minus_iff;
  match goal with |- 0 ≤ ?e => replace e with d by ring end.


Lemma hundredth_nonneg : 0 ≤ / Qc_of_Z 100.
Proof. by vm_compute. Qed.

Lemma Qcmult_nonneg (x y : Qc) : 0 ≤ x -> 0 ≤ y -> 0 ≤ x * y.
Proof.
  intros Hx Hy. rewrite <- (Qcmult_0_l y). by apply Qcmult_le_compat_r.
Qed.


Lemma Math_minQ_nonneg (a m : Qc) : 0 ≤ a -> 0 ≤ m -> 0 ≤ Math_minQ a m.
Proof. unfold Math_minQ. destruct (decide (a ≤ m)); auto. Qed.


Lemma Math_maxQ_mono (p q : Qc) : p ≤ q -> Math_maxQ 0 p ≤ Math_maxQ 0 q.
Proof.
  intros Hpq. unfold Math_maxQ.
  destruct (decide (0 ≤ p)) as [Hp | Hp], (decide (0 ≤ q)) as [Hq | Hq];
    try assumption; try apply Qcle_refl.
  destruct Hq. by apply Qcle_trans with p.
Qed.

Lemma discountAmount_nonneg (p : Qc) (d : IDiscount) :
  0 ≤ value d -> 0 ≤ p -> 0 ≤ discountAmount p d.
Proof.
  intros Hv Hp. unfold discountAmount.
  assert (Hraw : 0 ≤ match type d with
                     | PERCENTAGE => p * value d / Qc_of_Z 100
                     | FIXED_AMOUNT => value d
                     | _ => 0
                     end).
  { destruct (type d); try apply Qcle_refl; [| exact Hv].
    apply Qcmult_nonneg; [by apply Qcmult_nonneg | apply hundredth_nonneg]. }
  case_bool_decide as Hcap; [| exact Hraw].
  apply Math_minQ_nonneg; [exact Hraw | by apply Qclt_le_weak].
Qed.

Lemma applyDiscount_le (p : Qc) (d : IDiscount) :
  nonnegDiscount d -> applyDiscount p d ≤ p.
Proof.
  intros [Hv Hm]. unfold applyDiscount.
  case_bool_decide as Hmin; [| apply Qcle_refl].
  by_difference (discountAmount p d).
  apply discountAmount_nonneg; [exact Hv | by apply Qcle_trans with (minPurchase d)].
Qed.


Lemma loop_never_raises (ds : list IDiscount) (p : Qc) :
  Forall nonnegDiscount ds -> fold_left applyDiscount ds p ≤ p.
Proof.
  intros Hds. revert p.
  induction Hds as [| d ds Hd _ IH]; intros p; [apply Qcle_refl |].
  cbn [fold_left]. apply Qcle_trans with (applyDiscount p d);
    [apply IH | by apply applyDiscount_le].
Qed.



Lemma Forall_filter_keep {A} (P : A -> Prop) (f : A -> bool) (l : list A) :
  Forall P l -> Forall P (List.filter f l).
Proof.
  induction 1 as [| x l Hx _ IH]; cbn [List.filter]; [constructor |].
  destruct (f x); [by constructor | exact IH].
Qed.

(** X7. Discounts never raise the price: when every discount of the
    record has [value >= 0] and [minPurchase >= 0] (the schema's
    [min: 0]), [calculateFinalPrice(qty)] is at most [sellingPrice*qty]
    floored at 0, at every time. *)
Theorem discounts_never_raise_price (this : IInventory) (quantity now : Z) :
  Forall nonnegDiscount (discounts this) ->
  calculateFinalPrice (Some quantity) now this
    ≤ Math_maxQ 0 (sellingPrice this * Qc_of_Z quantity).
Proof.
  intros Hds. unfold calculateFinalPrice. cbn [default].
  apply Math_maxQ_mono, loop_never_raises. by apply Forall_filter_keep.
Qed.

Lemma discounts_never_raise_price_witness :
  calculateFinalPrice (Some 2%Z) 500 (discounted 0 1000)
    ≤ Math_maxQ 0 (sellingPrice (discounted 0 1000) * Qc_of_Z 2).
Proof.
  apply (discounts_never_raise_price (discounted 0 1000) 2 500).
  repeat constructor; by vm_compute.
Defined.



(** X9. A discount that is switched off, not yet valid or expired has no
    effect on the price, wherever it stands in the list. *)
Theorem stale_discount_is_ignored
    (this : IInventory) (quantity now : Z) (before after : list IDiscount)
    (d : IDiscount) :
  isActive d = false \/ (now < validFrom d)%Z \/ (validUntil d < now)%Z ->
  calculateFinalPrice (Some quantity) now
    (set_discounts (before ++ d :: after) this)
  = calculateFinalPrice (Some quantity) now
      (set_discounts (before ++ after) this).
Proof.
  intros Hstale.
  assert (Hd : isActiveDiscount now d = false).
  { unfold isActiveDiscount.
    destruct Hstale as [-> | [Hearly | Hlate]]; [reflexivity | |].
    - rewrite (proj2 (Z.leb_gt (validFrom d) now) Hearly).
      by rewrite andb_false_r.
    - rewrite Z.geb_leb, (proj2 (Z.leb_gt now (validUntil d)) Hlate).
      by rewrite andb_false_r. }
  unfold calculateFinalPrice. cbn [default discounts sellingPrice set_discounts].
  rewrite !List.filter_app. cbn [List.filter]. by rewrite Hd.
Qed.

Lemma stale_discount_is_ignored_witness :
  calculateFinalPrice (Some 2%Z) 2000
    (set_discounts ([] ++ tenPercent 0 1000 :: []) (stock 10 4))
  = calculateFinalPrice (Some 2%Z) 2000 (set_discounts ([] ++ []) (stock 10 4)).
Proof.
  apply (stale_discount_is_ignored (stock 10 4) 2 2000 [] [] (tenPercent 0 1000)).
  right. right. cbn. lia.
Defined.

End PricingLaws.

(** ** Further properties of the discount list *)

Module DiscountListLaws.
Import Inventory Samples Derived.

Lemma filter_all_kept {A} (f : A -> bool) (l : list A) :
  Forall (fun x => f x = true) l -> List.filter f l = l.
Proof.
  induction 1 as [| x l Hx _ IH]; cbn [List.filter]; [reflexivity |].
  by rewrite Hx, IH.
Qed.

(** X10. [removeDiscount(id)] returns and leaves exactly the discounts
    whose [discountId] is not [id]: every discount with that id is gone
    (not only the first), nothing else is, and the stock counters are not
    touched; removing a discount by its id right after adding it gives the
    record back, provided no discount of the record already carried that
    id. *)
Section Discounts.
Context {setters : SchemaSetters}.


End Discounts.


End DiscountListLaws.

(** ** Further properties of orders *)

Module OrderLaws.
Import Order Samples OrderDerived OrderProps.

Lemma markAsPaid_eq (this : IOrder) :
  markAsPaid this = (Return tt, set_paymentStatus PaymentStatus.COMPLETED this).
Proof. reflexivity. Qed.

Lemma last_default_irrelevant {A} (x : A) (l : list A) (d d' : A) :
  List.last (x :: l) d = List.last (x :: l) d'.
Proof.
  revert x. induction l as [| y l IH]; intros x; [reflexivity |].
  change (List.last (y :: l) d = List.last (y :: l) d'). apply IH.
Qed.

(** X11. Status updates compose without any check: whatever the order
    and whatever the list of updates, applying them in turn returns, the
    history is the old history followed by one entry per update in call
    order, and the status is that of the last update (the old one when
    there is none). *)
Theorem updateAll_appends (updates : list StatusUpdate) (this : IOrder) :
  completion (updateAll updates this) = Return tt
  /\ statusHistory (trackingInfo (after (updateAll updates this)))
     = (statusHistory (trackingInfo this) ++ map entryOf updates)%list
  /\ status (after (updateAll updates this))
     = List.last (map (fun u : StatusUpdate => u.1.1) updates) (status this).
Proof.
  revert this. induction updates as [| u updates IH]; intros this.
  - cbn. by rewrite app_nil_r.
  - change (updateAll (u :: updates) this)
      with (updateAll updates (after (updateStatus u.1.1 u.1.2 u.2 this))).
    destruct (IH (after (updateStatus u.1.1 u.1.2 u.2 this))) as (Hret & Hhist & Hst).
    rewrite Hret, Hhist, Hst, updateStatus_eq. cbn [after snd].
    repeat split.
    + cbn. by rewrite <- app_assoc.
    + cbn [map]. destruct updates as [| u' updates]; [reflexivity |].
      cbn [map].
      etransitivity; [apply last_default_irrelevant with (d' := status this) |].
      reflexivity.
Qed.

(** X12. The status fields stay in step: after [updateStatus] the
    top-level status, [trackingInfo.currentStatus] and the last history
    entry agree, and [cancel] and [markAsPaid] keep them in agreement
    whether they return or throw. *)
Theorem status_fields_consistent (this : IOrder) :
  (forall newStatus notes now,
     consistent (after (updateStatus newStatus notes now this)))
  /\ (consistent this ->
      forall reason now, consistent (after (cancel reason now this)))
  /\ (consistent this -> consistent (after (markAsPaid this))).
Proof.
  split; [| split].
  - intros newStatus notes now. rewrite updateStatus_eq.
    split; cbn; [reflexivity | by rewrite last_snoc].
  - intros Hc reason now.
    destruct (decide (status this = OrderStatus.DELIVERED)) as [Hd | Hnd].
    + by rewrite (cancel_delivered _ _ _ Hd).
    + rewrite (cancel_not_delivered _ _ _ Hnd), updateStatus_eq.
      split; cbn; [reflexivity | by rewrite last_snoc].
  - intros Hc. rewrite markAsPaid_eq. exact Hc.
Qed.

Lemma status_fields_consistent_witness :
  consistent pendingOrder /\ consistent (after (cancel None 5 pendingOrder)).
Proof.
  assert (Hc : consistent pendingOrder) by (split; reflexivity).
  split; [exact Hc |].
  apply (proj1 (proj2 (status_fields_consistent pendingOrder)) Hc).
Defined.

(** X13. [markAsPaid] looks at nothing: on every order it returns with
    [paymentStatus] COMPLETED and the status and tracking untouched; so an
    order that [cancel] has just cancelled is marked paid all the same,
    CANCELLED with payment COMPLETED. *)
Theorem markAsPaid_unguarded (this : IOrder) :
  (completion (markAsPaid this) = Return tt
   /\ paymentStatus (after (markAsPaid this)) = PaymentStatus.COMPLETED
   /\ status (after (markAsPaid this)) = status this
   /\ trackingInfo (after (markAsPaid this)) = trackingInfo this)
  /\ (status this <> OrderStatus.DELIVERED ->
      forall reason now,
        let paid := after (markAsPaid (after (cancel reason now this))) in
        status paid = OrderStatus.CANCELLED
        /\ paymentStatus paid = PaymentStatus.COMPLETED).
Proof.
  split; [by rewrite markAsPaid_eq |].
  intros Hnd reason now.
  rewrite (cancel_not_delivered _ _ _ Hnd), updateStatus_eq. by cbn.
Qed.

Lemma markAsPaid_unguarded_witness :
  status (after (markAsPaid (after (cancel None 5 pendingOrder))))
  = OrderStatus.CANCELLED
  /\ paymentStatus (after (markAsPaid (after (cancel None 5 pendingOrder))))
     = PaymentStatus.COMPLETED.
Proof.
  apply (proj2 (markAsPaid_unguarded pendingOrder)). discriminate.
Defined.

(** X14. [canCancel] is a safe pre-check for [cancel]: whenever it is
    true, [cancel] returns, and afterwards [canCancel] is false. *)
Theorem canCancel_sound (this : IOrder) (reason : option string) (now : Z) :
  canCancel this = true ->
  completion (cancel reason now this) = Return tt
  /\ canCancel (after (cancel reason now this)) = false.
Proof.
  intros Hcan.
  assert (Hnd : status this <> OrderStatus.DELIVERED).
  { intros Hd. unfold canCancel in Hcan. rewrite Hd in Hcan. discriminate. }
  by rewrite (cancel_not_delivered _ _ _ Hnd), updateStatus_eq.
Qed.

Lemma canCancel_sound_witness :
  completion (cancel None 5 pendingOrder) = Return tt
  /\ canCancel (after (cancel None 5 pendingOrder)) = false.
Proof.
  apply (canCancel_sound pendingOrder None 5). reflexivity.
Defined.

Lemma fold_quantity_shift (its : list IOrderItem) (acc : Z) :
  fold_left (fun sum item => sum + quantity item) its acc
  = acc + fold_left (fun sum item => sum + quantity item) its 0.
Proof.
  revert acc. induction its as [| it its IH]; intros acc; cbn [fold_left].
  - lia.
  - rewrite IH, (IH (0 + quantity it)). lia.
Qed.

(** X16. With every item's quantity at least 1 (the schema's [min: 1]),
    [itemCount] is at least the number of items. *)
Theorem itemCount_at_least_length (this : IOrder) :
  Forall (fun item => 1 <= quantity item) (items this) ->
  Z.of_nat (length (items this)) <= itemCount this.
Proof.
  unfold itemCount. generalize (items this).
  induction 1 as [| it its Hq _ IH]; cbn [fold_left length]; [lia |].
  rewrite fold_quantity_shift. lia.
Qed.

Lemma itemCount_at_least_length_witness :
  Z.of_nat (length (items (basket [tea; rice]))) <= itemCount (basket [tea; rice]).
Proof.
  apply (itemCount_at_least_length (basket [tea; rice])).
  repeat constructor; cbn; lia.
Defined.

End OrderLaws.

(** ** Properties of products *)

Module ProductLaws.
Import Product ProductDerived.
Local Open Scope Qc_scope.

Ltac run_product :=
  cbv [updateRating toggleActive addImage removeImage
       mbind mret Method_bind Method_ret bind ret get modify save
       completion after];
  cbn [fst snd images isActive averageRating reviewCount
       set_images set_isActive set_averageRating set_reviewCount].




Lemma includes_In (l : list string) (x : string) :
  includes l x = true <-> In x l.
Proof.
  unfold includes. rewrite existsb_exists. split.
  - intros (y & Hin & Heq). apply bool_decide_eq_true_1 in Heq. by subst.
  - intros Hin. exists x. split; [exact Hin | by apply bool_decide_eq_true_2].
Qed.









Lemma addImage_absent (this : IProduct) (imageUrl : string) :
  includes (images this) imageUrl = false ->
  addImage imageUrl this
  = saveValidated [("images", fun _ => isImageUrl imageUrl)]
      (set_images (images this ++ [imageUrl])%list this).
Proof. intros Hin. run_product. by rewrite Hin. Qed.



(** X21. [removeImage] takes every occurrence of the image out and
    nothing else; removing an image right after adding it gives the
    product back when the image was not there before. *)
Theorem removeImage_removes (this : IProduct) (imageUrl : string) :
  (forall img,
     In img (images (after (removeImage imageUrl this)))
     <-> In img (images this) /\ img <> imageUrl)
  /\ (~ In imageUrl (images this) ->
      after (removeImage imageUrl (after (addImage imageUrl this))) = this).
Proof.
  split.
  - intros img.
    change (images (after (removeImage imageUrl this)))
      with (List.filter (fun img => negb (bool_decide (img = imageUrl)))
              (images this)).
    rewrite filter_In, negb_true_iff.
    split; intros [Hin Hne]; (split; [exact Hin |]).
    + by apply bool_decide_eq_false_1 in Hne.
    + by apply bool_decide_eq_false_2.
  - intros Hfresh.
    assert (Hinc : includes (images this) imageUrl = false).
    { destruct (includes (images this) imageUrl) eqn:Hinc; [| reflexivity].
      by apply includes_In in Hinc. }
    rewrite (addImage_absent this _ Hinc), JsFacts.saveValidated_after.
    destruct this as [n de c sp im bp un tg act cb avg rc].
    run_product. cbn [images] in Hinc, Hfresh.
    cbv [set_images snd].
    cbn [name description category specifications images basePrice unit tags
         isActive createdBy averageRating reviewCount].
    f_equal. rewrite List.filter_app. cbn [List.filter].
    rewrite bool_decide_eq_true_2 by reflexivity. cbn [negb].
    rewrite app_nil_r. apply DiscountListLaws.filter_all_kept.
    apply List.Forall_forall. intros img Hin.
    apply negb_true_iff, bool_decide_eq_false_2. congruence.
Qed.

Lemma removeImage_removes_witness :
  after (removeImage "http://img/2"
           (after (addImage "http://img/2" (rated 0 0 ["http://img/1"]))))
  = rated 0 0 ["http://img/1"].
Proof.
  apply (proj2 (removeImage_removes (rated 0 0 ["http://img/1"]) "http://img/2")).
  cbn. intros [Heq | []]. discriminate.
Defined.

End ProductLaws.

(** ** Properties of loyalty points *)

Module CustomerLaws.
Import Customer.

Lemma redeem_enough (this : ICustomer) (points : Z) :
  loyaltyPoints this >= points ->
  redeemLoyaltyPoints points this
  = (Return true, set_loyaltyPoints (loyaltyPoints this - points) this).
Proof.
  intros Hge. cbv [redeemLoyaltyPoints mbind mret Method_bind Method_ret bind
                   ret get modify saveValidated failing min_loyaltyPoints].
  cbn [List.filter map snd loyaltyPoints set_loyaltyPoints].
  destruct (Z.geb_spec (loyaltyPoints this) points); [| lia].
  destruct (Z.leb_spec 0 (loyaltyPoints this - points)); [reflexivity | lia].
Qed.

Lemma redeem_short (this : ICustomer) (points : Z) :
  loyaltyPoints this < points ->
  redeemLoyaltyPoints points this = (Return false, this).
Proof.
  intros Hlt. cbv [redeemLoyaltyPoints mbind mret Method_bind Method_ret bind
                   ret get modify].
  destruct (Z.geb_spec (loyaltyPoints this) points); [lia | reflexivity].
Qed.

(** X22. [redeemLoyaltyPoints] never overdraws: it answers [true]
    exactly when the balance covers the points, it never throws, a
    refusal leaves the customer untouched, and a balance that is not
    negative is not negative afterwards, whatever the points. *)
Theorem redeem_never_overdraws (this : ICustomer) (points : Z) :
  (completion (redeemLoyaltyPoints points this) = Return true
     <-> loyaltyPoints this >= points)
  /\ (forall e, completion (redeemLoyaltyPoints points this) <> Throw e)
  /\ (loyaltyPoints this < points ->
      after (redeemLoyaltyPoints points this) = this)
  /\ (0 <= loyaltyPoints this ->
      0 <= loyaltyPoints (after (redeemLoyaltyPoints points this))).
Proof.
  destruct (Z_lt_ge_dec (loyaltyPoints this) points) as [Hlt | Hge].
  - rewrite (redeem_short _ _ Hlt). cbn.
    repeat split; try discriminate; try lia; try tauto.
  - rewrite (redeem_enough _ _ Hge). cbn.
    repeat split; try discriminate; try lia; try tauto.
Qed.

Lemma redeem_never_overdraws_witness :
  0 <= loyaltyPoints (after (redeemLoyaltyPoints 30 (mkCustomer [] [] 50 None)))
  /\ after (redeemLoyaltyPoints 80 (mkCustomer [] [] 50 None))
     = mkCustomer [] [] 50 None.
Proof.
  destruct (redeem_never_overdraws (mkCustomer [] [] 50 None) 30)
    as (_ & _ & _ & Hpos).
  destruct (redeem_never_overdraws (mkCustomer [] [] 50 None) 80)
    as (_ & _ & Hsame & _).
  split; [apply Hpos; cbn; lia | apply Hsame; cbn; lia].
Defined.

(** X23. Points that were just added can be redeemed: on a balance that
    is not negative, [redeemLoyaltyPoints(p)] after [addLoyaltyPoints(p)]
    answers [true] and the balance is what it was before both. *)
Theorem add_then_redeem (this : ICustomer) (points : Z) :
  0 <= loyaltyPoints this ->
  let credited := after (addLoyaltyPoints points this) in
  completion (redeemLoyaltyPoints points credited) = Return true
  /\ loyaltyPoints (after (redeemLoyaltyPoints points credited))
     = loyaltyPoints this.
Proof.
  intros Hbal credited.
  assert (Hc : loyaltyPoints credited = loyaltyPoints this + points).
  { subst credited.
    change (addLoyaltyPoints points this)
      with (saveValidated [min_loyaltyPoints]
              (set_loyaltyPoints (loyaltyPoints this + points) this)).
    by rewrite JsFacts.saveValidated_after. }
  rewrite redeem_enough by lia. cbn. split; [reflexivity | lia].
Qed.

Lemma add_then_redeem_witness :
  completion (redeemLoyaltyPoints 20
                (after (addLoyaltyPoints 20 (mkCustomer [] [] 50 None))))
  = Return true
  /\ loyaltyPoints
       (after (redeemLoyaltyPoints 20
                 (after (addLoyaltyPoints 20 (mkCustomer [] [] 50 None))))) = 50.
Proof.
  apply (add_then_redeem (mkCustomer [] [] 50 None) 20). cbn. lia.
Defined.

End CustomerLaws.

(** ** Further properties of the auth service *)

Module AuthLaws.
Import User Jwt Auth Samples AuthDerived AuthProps.

Lemma find_by_unique_id (l : list IUser) (user : IUser) :
  List.NoDup (map _id l) -> In user l ->
  find (fun u => bool_decide (_id u = _id user)) l = Some user.
Proof.
  induction l as [| x l IH]; intros Hnd Hin; [destruct Hin |].
  cbn [map] in Hnd. apply List.NoDup_cons_iff in Hnd as [Hfresh Hnd].
  cbn [find]. destruct Hin as [-> | Hin].
  - by rewrite bool_decide_eq_true_2.
  - rewrite bool_decide_eq_false_2; [by apply IH |].
    intros Heq. apply Hfresh. rewrite Heq. by apply in_map.
Qed.

Section Sessions.
Context {jwt : JwtService} {bcrypt : Bcrypt} {setters : SchemaSetters}.

(** What a returning [login] went through. *)
Lemma login_returns_inv
    (data : LoginData) (now : Z) (w w1 : World) (r : IUser * TokenPair) :
  Auth.login data now w = (Return r, w1) ->
  exists user,
    find (fun u => bool_decide (User.email u = lowercase_trim (login_email data))) (users w) = Some user
    /\ isActive user = true
    /\ comparePassword user (login_password data) = true
    /\ r = (toObject user,
            generateTokenPair now
              (mkPayload (_id user) (User.email user) (User.userType user)))
    /\ w1 = set_refreshTokens
              (<[_id user := Jwt.refreshToken (snd r)]> (refreshTokens w)) w.
Proof.
  run_service.
  destruct (find (fun u => bool_decide (User.email u = lowercase_trim (login_email data))) (users w))
    as [user |] eqn:Hfind; [| discriminate].
  destruct (isActive user) eqn:Hact; cbn [negb]; [| discriminate].
  destruct (comparePassword user (login_password data)) eqn:Hpw; cbn [negb];
    [| discriminate].
  intros Hret. injection Hret as <- <-.
  exists user. repeat split; assumption || reflexivity.
Qed.

Lemma login_throws_inv
    (data : LoginData) (now : Z) (w w1 : World) (e : Error) :
  Auth.login data now w = (Throw e, w1) ->
  w1 = w /\ (e = InvalidCredentials \/ e = AccountDeactivated).
Proof.
  run_service.
  destruct (find (fun u => bool_decide (User.email u = lowercase_trim (login_email data))) (users w))
    as [user |]; [| intros [= <- <-]; auto].
  destruct (isActive user); cbn [negb]; [| intros [= <- <-]; auto].
  destruct (comparePassword user (login_password data)); cbn [negb];
    [discriminate | intros [= <- <-]; auto].
Qed.

Lemma refreshToken_throws_inv
    (t : string) (now : Z) (w w1 : World) (e : Error) :
  Auth.refreshToken t now w = (Throw e, w1) -> w1 = w.
Proof.
  run_service.
  destruct (verifyRefreshToken now t) as [payload | e']; [| by intros [= _ <-]].
  destruct (negb (from_option truthy false (refreshTokens w !! userId payload))
            || negb (bool_decide (refreshTokens w !! userId payload = Some t)));
    [by intros [= _ <-] |].
  destruct (find (fun u => bool_decide (_id u = userId payload)) (users w))
    as [user |]; cbn [fmap option_fmap option_map]; [| by intros [= _ <-]].
  cbn [isActive set_password].
  destruct (isActive user); cbn [negb]; [discriminate | by intros [= _ <-]].
Qed.

(** X24. A failed login or refresh changes nothing: when [login] or
    [refreshToken] throws, the user collection and the token store are
    what they were; and [login] throws nothing but 'Invalid email or
    password' and the deactivation error. *)
Theorem failed_auth_changes_nothing (w : World) (now : Z) :
  (forall data e w1,
     Auth.login data now w = (Throw e, w1) ->
     w1 = w /\ (e = InvalidCredentials \/ e = AccountDeactivated))
  /\ (forall t e w1, Auth.refreshToken t now w = (Throw e, w1) -> w1 = w).
Proof.
  split.
  - intros data e w1. apply login_throws_inv.
  - intros t e w1. apply refreshToken_throws_inv.
Qed.

(** X25. What a successful login leaves behind: the user object it
    returns is a stored, active user whose email is the one given,
    lowercased and trimmed, and it carries no password; the refresh token
    it returns is the one stored under that user's id; the tokens stored
    for other users are untouched; and the user collection is what it
    was. *)
Theorem login_success_effects
    (data : LoginData) (now : Z) (w w1 : World) (u : IUser) (tokens : TokenPair) :
  Auth.login data now w = (Return (u, tokens), w1) ->
  password u = None
  /\ (exists stored,
        In stored (users w) /\ u = set_password None stored
        /\ User.email stored = lowercase_trim (login_email data)
        /\ isActive stored = true)
  /\ refreshTokens w1 !! _id u = Some (Jwt.refreshToken tokens)
  /\ (forall other, other <> _id u ->
      refreshTokens w1 !! other = refreshTokens w !! other)
  /\ users w1 = users w.
Proof.
  intros Hlogin.
  destruct (login_returns_inv _ _ _ _ _ Hlogin)
    as (user & Hfind & Hact & _ & [= -> ->] & ->).
  apply find_some in Hfind as [Hin Hmail].
  apply bool_decide_eq_true_1 in Hmail.
  cbn [snd toObject set_password password _id
       refreshTokens users set_refreshTokens].
  split; [reflexivity |].
  split; [exists user; auto |].
  split; [apply lookup_insert_eq |].
  split; [| reflexivity].
  intros other Hne. by rewrite lookup_insert_ne.
Qed.

End Sessions.

Lemma login_success_effects_witness :
  exists u tokens w1,
    Auth.login (jwt := sampleJwt) (bcrypt := sampleBcrypt)
      (setters := Derived.sampleSetters)
      (mkLoginData "Asha@Example.com " "secret1") 200 world
    = (Return (u, tokens), w1)
    /\ password u = None
    /\ refreshTokens w1 !! _id u = Some (Jwt.refreshToken tokens)
    /\ users w1 = users world.
Proof.
  destruct (Auth.login (jwt := sampleJwt) (bcrypt := sampleBcrypt)
              (setters := Derived.sampleSetters)
              (mkLoginData "Asha@Example.com " "secret1") 200 world)
    as [[[u tokens] | e] w1] eqn:Hlogin; [| vm_compute in Hlogin; discriminate].
  exists u, tokens, w1. split; [reflexivity |].
  destruct (login_success_effects (jwt := sampleJwt) (bcrypt := sampleBcrypt)
              (setters := Derived.sampleSetters)
              _ _ _ _ _ _ Hlogin) as (Hpw & _ & Hstore & _ & Husers).
  split; [exact Hpw | split; [exact Hstore | exact Husers] ].
Defined.

Lemma failed_auth_changes_nothing_witness :
  Auth.login (jwt := sampleJwt) (bcrypt := sampleBcrypt)
    (setters := Derived.sampleSetters)
    (mkLoginData "asha@example.com" "guess") 7 world
  = (Throw InvalidCredentials, world)
  /\ world = world.
Proof.
  assert (Hthrow :
    Auth.login (jwt := sampleJwt) (bcrypt := sampleBcrypt)
      (setters := Derived.sampleSetters)
      (mkLoginData "asha@example.com" "guess") 7 world
    = (Throw InvalidCredentials, world)) by reflexivity.
  split; [exact Hthrow |].
  apply (proj1 (failed_auth_changes_nothing
                  (jwt := sampleJwt) (bcrypt := sampleBcrypt)
                  (setters := Derived.sampleSetters) world 7)
           _ _ _ Hthrow).
Defined.

Section Rotation.
Context {jwt : JwtService} {bcrypt : Bcrypt} {setters : SchemaSetters}.

(** X26. A refresh token issued by [login] is honoured: when the user
    ids of the collection are distinct, the token issued is not empty and
    verifies to a payload naming the user, [refreshToken] on it returns
    a new pair made for that user and stores the new refresh token. *)
Theorem login_then_refresh
    (data : LoginData) (now now' : Z) (w w1 : World) (u : IUser)
    (tokens : TokenPair) (payload : JwtPayload) :
  List.NoDup (map _id (users w)) ->
  Auth.login data now w = (Return (u, tokens), w1) ->
  Jwt.refreshToken tokens <> "" ->
  verifyRefreshToken now' (Jwt.refreshToken tokens) = Return payload ->
  userId payload = _id u ->
  let next :=
    generateTokenPair now' (mkPayload (_id u) (User.email u) (User.userType u)) in
  Auth.refreshToken (Jwt.refreshToken tokens) now' w1
  = (Return next,
     set_refreshTokens (<[_id u := Jwt.refreshToken next]> (refreshTokens w1)) w1).
Proof.
  intros Hids Hlogin Hnonempty Hverify Huid next. subst next.
  destruct (login_returns_inv _ _ _ _ _ Hlogin)
    as (user & Hfind & Hact & _ & [= -> ->] & ->).
  apply find_some in Hfind as [Hin _].
  cbn [snd toObject set_password _id User.email User.userType] in *.
  run_service. rewrite Hverify. cbv beta iota. rewrite Huid.
  cbn [refreshTokens set_refreshTokens users set_users].
  rewrite lookup_insert_eq. cbn [from_option]. unfold truthy.
  rewrite (bool_decide_eq_false_2 _ Hnonempty).
  rewrite bool_decide_eq_true_2 by reflexivity. cbn [negb orb].
  cbn [refreshTokens set_refreshTokens users set_users].
  rewrite (find_by_unique_id _ _ Hids Hin). cbn [fmap option_fmap option_map].
  cbn [set_password isActive _id User.email User.userType].
  rewrite Hact. reflexivity.
Qed.

(** X27. [logoutAll] ends the session: after it, [refreshToken] on any
    token that verifies to that user throws 'Invalid refresh token' and
    changes nothing, while the tokens stored for other users are
    untouched.  The controller answers 401 without touching the store
    when the request carries no user, and 200 otherwise. *)
Theorem logoutAll_revokes (w : World) (uid : string) :
  (forall t now payload,
     verifyRefreshToken now t = Return payload ->
     userId payload = uid ->
     Auth.refreshToken t now (after (Auth.logoutAll uid w))
     = (Throw TokenMismatch, after (Auth.logoutAll uid w)))
  /\ (forall other, other <> uid ->
        refreshTokens (after (Auth.logoutAll uid w)) !! other
        = refreshTokens w !! other)
  /\ Controller.logoutAll None w
     = (Controller.mkResponse 401 false "Not authenticated" None, w)
  /\ (forall user,
        _id user = uid ->
        Controller.logoutAll (Some user) w
        = (Controller.mkResponse 200 true
             "Logged out from all devices successfully" None,
           after (Auth.logoutAll uid w))).
Proof.
  split; [| split; [| split] ].
  - intros t now payload Hverify Huid. run_service. rewrite Hverify.
    cbv beta iota. rewrite Huid.
    cbv [Auth.logoutAll deleteAllRefreshTokens modify].
    cbn [snd refreshTokens set_refreshTokens].
    rewrite lookup_delete_eq. reflexivity.
  - intros other Hne. cbv [Auth.logoutAll deleteAllRefreshTokens modify after].
    cbn [snd refreshTokens set_refreshTokens]. by rewrite lookup_delete_ne.
  - reflexivity.
  - intros user <-. reflexivity.
Qed.

End Rotation.

Lemma login_then_refresh_witness :
  Auth.refreshToken (jwt := sampleJwt) "refresh.u1.200" 300
    (after (Auth.login (jwt := sampleJwt) (bcrypt := sampleBcrypt)
              (setters := Derived.sampleSetters)
              (mkLoginData "asha@example.com" "secret1") 200 world))
  = (Return (mkTokenPair "access.u1.300" "refresh.u1.300"),
     set_refreshTokens
       (<["u1" := "refresh.u1.300"]>
          (refreshTokens
             (after (Auth.login (jwt := sampleJwt) (bcrypt := sampleBcrypt)
                       (setters := Derived.sampleSetters)
                       (mkLoginData "asha@example.com" "secret1") 200 world))))
       (after (Auth.login (jwt := sampleJwt) (bcrypt := sampleBcrypt)
                 (setters := Derived.sampleSetters)
                 (mkLoginData "asha@example.com" "secret1") 200 world))).
Proof.
  apply (login_then_refresh (jwt := sampleJwt) (bcrypt := sampleBcrypt)
           (setters := Derived.sampleSetters)
           (mkLoginData "asha@example.com" "secret1") 200 300 world
           (after (Auth.login (jwt := sampleJwt) (bcrypt := sampleBcrypt)
                     (setters := Derived.sampleSetters)
                     (mkLoginData "asha@example.com" "secret1") 200 world))
           (set_password None asha)
           (mkTokenPair "access.u1.200" "refresh.u1.200")
           (mkPayload "u1" "asha@example.com" CUSTOMER)).
  - cbn. repeat constructor; cbn; intuition discriminate.
  - vm_compute. reflexivity.
  - discriminate.
  - reflexivity.
  - reflexivity.
Defined.

Lemma logoutAll_revokes_witness :
  Auth.refreshToken (jwt := sampleJwt) "refresh.u1.100" 150
    (after (Auth.logoutAll "u1" world))
  = (Throw TokenMismatch, after (Auth.logoutAll "u1" world)).
Proof.
  apply (proj1 (logoutAll_revokes (jwt := sampleJwt) world "u1")
           "refresh.u1.100" 150 (mkPayload "u1" "asha@example.com" CUSTOMER));
    reflexivity.
Defined.

Section Responses.
Context {jwt : JwtService} {bcrypt : Bcrypt} {setters : SchemaSetters}.

(** X28. The status of the login endpoint tells exactly three cases
    apart: 200 when the service returns, 403 exactly when a user whose
    email is the one given, lowercased and trimmed, exists and is
    inactive, 401 otherwise; and unless it answers 200 the world is
    unchanged. *)
Theorem login_status (data : LoginData) (now : Z) (w : World) :
  let answer := Controller.login data now w in
  (Controller.status (fst answer) = 200
   \/ Controller.status (fst answer) = 401
   \/ Controller.status (fst answer) = 403)
  /\ (Controller.status (fst answer) = 200
      <-> returns (completion (Auth.login data now w)) = true)
  /\ (Controller.status (fst answer) = 403
      <-> exists u,
            find (fun u => bool_decide (User.email u = lowercase_trim (login_email data))) (users w)
              = Some u
            /\ isActive u = false)
  /\ (Controller.status (fst answer) <> 200 -> snd answer = w).
Proof.
  cbv zeta. unfold Controller.login.
  destruct (Auth.login data now w) as [[r | e] w1] eqn:Hlogin.
  - cbn. repeat split; auto; try discriminate; try congruence.
    intros (u & Hfind & Hoff).
    destruct (login_returns_inv _ _ _ _ _ Hlogin) as (user & Hfind' & Hon & _).
    congruence.
  - destruct (login_throws_inv _ _ _ _ _ Hlogin) as [-> [-> | ->] ].
    + cbn. repeat split; auto; try discriminate.
      intros (u & Hfind & Hoff).
      rewrite (login_deactivated data now w u Hfind Hoff) in Hlogin.
      discriminate.
    + cbn. repeat split; auto; try discriminate.
      intros _. apply (login_throws_deactivated_inv data now w).
      by rewrite Hlogin.
Qed.

End Responses.

Section Registration.
Context {jwt : JwtService} {models : UserModels} {setters : SchemaSetters}.

(** X29. What [register] refuses before it creates anything, with the
    world left unchanged each time: an email that, lowercased and
    trimmed, is already in use (409); and, for an email that is not, a
    user type other than CUSTOMER, RETAILER or WHOLESALER, a retailer
    without a business name, a wholesaler without business name or GSTIN,
    and a wholesaler without bank details (400, each with its own
    message). *)
Theorem register_rejections (data : RegisterData) (now : Z) (w : World) :
  let existing :=
    find (fun u => bool_decide (User.email u = lowercase_trim (reg_email data)))
         (users w) in
  (is_Some existing ->
   Auth.register data now w = (Throw DuplicateEmail, w)
   /\ Controller.register data now w
      = (Controller.mkResponse 409 false
           "User with this email already exists" None, w))
  /\ (existing = None ->
      (reg_userType data <> "CUSTOMER" ->
       reg_userType data <> "RETAILER" ->
       reg_userType data <> "WHOLESALER" ->
       Controller.register data now w
       = (Controller.mkResponse 400 false "Invalid user type" None, w))
      /\ (reg_userType data = "RETAILER" ->
          missing (businessName data) = true ->
          Controller.register data now w
          = (Controller.mkResponse 400 false
               "Business name is required for retailers" None, w))
      /\ (reg_userType data = "WHOLESALER" ->
          missing (businessName data) || missing (gstin data) = true ->
          Controller.register data now w
          = (Controller.mkResponse 400 false
               "Business name and GSTIN are required for wholesalers" None, w))
      /\ (reg_userType data = "WHOLESALER" ->
          missing (businessName data) || missing (gstin data) = false ->
          bankDetails data = None ->
          Controller.register data now w
          = (Controller.mkResponse 400 false
               "Bank details are required for wholesalers" None, w))).
Proof.
  cbv zeta. split.
  - intros [user Hfind].
    assert (Hthrow : Auth.register data now w = (Throw DuplicateEmail, w)).
    { cbv [Auth.register findOne_email mbind mret Method_bind Method_ret bind
           ret throw get]. by rewrite Hfind. }
    split; [exact Hthrow |]. unfold Controller.register. by rewrite Hthrow.
  - intros Hnone.
    assert (Hstart : forall e,
      (if bool_decide (reg_userType data = "CUSTOMER") then Customer_create data
       else if bool_decide (reg_userType data = "RETAILER") then
         if missing (businessName data) then throw BusinessNameRequired
         else Retailer_create data
       else if bool_decide (reg_userType data = "WHOLESALER") then
         if missing (businessName data) || missing (gstin data)
         then throw BusinessNameAndGstinRequired
         else if negb (bool_decide (is_Some (bankDetails data)))
         then throw BankDetailsRequired
         else Wholesaler_create data
       else throw InvalidUserType) w = (Throw e, w) ->
      Auth.register data now w = (Throw e, w)).
    { intros e Hstep.
      cbv [Auth.register findOne_email mbind mret Method_bind Method_ret bind
           ret get]. rewrite Hnone. cbv beta iota. by rewrite Hstep. }
    repeat split.
    + intros Hc Hr Hw'. unfold Controller.register.
      rewrite (Hstart InvalidUserType); [reflexivity |].
      by rewrite !bool_decide_eq_false_2.
    + intros Hr Hmiss. unfold Controller.register.
      rewrite (Hstart BusinessNameRequired); [reflexivity |].
      rewrite Hr, Hmiss. reflexivity.
    + intros Hw' Hmiss. unfold Controller.register.
      rewrite (Hstart BusinessNameAndGstinRequired); [reflexivity |].
      rewrite Hw', Hmiss. reflexivity.
    + intros Hw' Hpresent Hbank. unfold Controller.register.
      rewrite (Hstart BankDetailsRequired); [reflexivity |].
      rewrite Hw', Hpresent, Hbank. reflexivity.
Qed.

End Registration.

Lemma login_status_witness :
  Controller.status
    (fst (Controller.login (jwt := sampleJwt) (bcrypt := sampleBcrypt)
            (setters := Derived.sampleSetters)
            (mkLoginData "RAVI@example.com" "secret2") 7 world)) = 403.
Proof.
  apply (proj2 (proj1 (proj2 (proj2
           (login_status (jwt := sampleJwt) (bcrypt := sampleBcrypt)
              (setters := Derived.sampleSetters)
              (mkLoginData "RAVI@example.com" "secret2") 7 world))))).
  exists ravi. split; reflexivity.
Defined.

Lemma register_rejections_witness :
  Controller.register (jwt := sampleJwt) (models := sampleModels)
    (setters := Derived.sampleSetters)
    (signup "ASHA@example.com" "ADMIN" None) 7 world
  = (Controller.mkResponse 409 false "User with this email already exists" None,
     world)
  /\ Controller.register (jwt := sampleJwt) (models := sampleModels)
       (setters := Derived.sampleSetters)
       (signup "nila@example.com" "ADMIN" None) 7 world
     = (Controller.mkResponse 400 false "Invalid user type" None, world)
  /\ Controller.register (jwt := sampleJwt) (models := sampleModels)
       (setters := Derived.sampleSetters)
       (signup "nila@example.com" "RETAILER" (Some "")) 7 world
     = (Controller.mkResponse 400 false
          "Business name is required for retailers" None, world).
Proof.
  destruct (register_rejections (jwt := sampleJwt) (models := sampleModels)
              (setters := Derived.sampleSetters)
              (signup "ASHA@example.com" "ADMIN" None) 7 world)
    as [Hdup _].
  destruct (register_rejections (jwt := sampleJwt) (models := sampleModels)
              (setters := Derived.sampleSetters)
              (signup "nila@example.com" "ADMIN" None) 7 world)
    as [_ Hnew].
  destruct (register_rejections (jwt := sampleJwt) (models := sampleModels)
              (setters := Derived.sampleSetters)
              (signup "nila@example.com" "RETAILER" (Some "")) 7 world)
    as [_ Hnew'].
  split; [apply Hdup; by eexists | split].
  - apply (proj1 (Hnew eq_refl)); discriminate.
  - apply (proj1 (proj2 (Hnew' eq_refl))); reflexivity.
Defined.

End AuthLaws.
